(** * Model selection and recognition for per-word hidden Markov models

    A shallow embedding of [my_model_selectors.py] and [my_recognizer.py].

    - Python [float] is IEEE binary64, which is exactly Rocq's primitive
      [float]; comparisons and arithmetic are the primitive ones, so NaN and
      the infinities behave as they do in the source.
    - Python [int] is [Z]; counts and list indices are [nat].
    - A [dict] whose iteration order is observed (the word dictionaries and
      the model collection) is an association list in insertion order; the
      per-item result dictionary of [recognize] is a [gmap].
    - hmmlearn, scikit-learn, [asl_utils] and [math.log] are not part of the
      repository: they are the fields of the [Adapter] class.  A call that
      raises is a call that answers [None].
    - Exceptions are the [Raised] outcome.  The selectors run in a small
      state-and-exception monad whose state holds the two loop variables of
      the search and the log of every model fit that was requested. *)

From Stdlib Require Import ZArith Lia Floats.
From stdpp Require Import base option list gmap strings.

Local Open Scope Z_scope.

(** ** Python floats: an order key for the non-NaN values *)

Module PyFloat.

(** [key] sends a non-NaN binary64 value to a triple that is ordered
    lexicographically the way IEEE comparison orders the values. *)
Definition key (x : spec_float) : option (Z * Z * Z) :=
  match x with
  | S754_nan => None
  | S754_zero _ => Some (0, 0, 0)
  | S754_infinity true => Some (-2, 0, 0)
  | S754_infinity false => Some (2, 0, 0)
  | S754_finite true m e => Some (-1, - e, - Z.pos m)
  | S754_finite false m e => Some (1, e, Z.pos m)
  end.

Definition lex_lt (a b : Z * Z * Z) : Prop :=
  let '(a1, a2, a3) := a in
  let '(b1, b2, b3) := b in
  a1 < b1 \/ (a1 = b1 /\ (a2 < b2 \/ (a2 = b2 /\ a3 < b3))).

Definition fkey (x : float) : option (Z * Z * Z) := key (Prim2SF x).

(** [a > b] and [a < b] of the source, as "the new value beats the
    current one". *)
Definition gt (new cur : float) : bool := PrimFloat.ltb cur new.
Definition lt (new cur : float) : bool := PrimFloat.ltb new cur.

(** Conversion of a Python [int] in mixed arithmetic: correctly rounded,
    [OverflowError] (here [None]) when the integer is too large. *)
Definition of_int (z : Z) : option float :=
  let f := SF2Prim (binary_normalize prec emax z 0 false) in
  if PrimFloat.is_infinity f then None else Some f.

End PyFloat.

(** ** Data *)

(** A 2-D array of frames by features. *)
Definition matrix : Type := list (list float).

(** The pair [(X, lengths)] accepted by the fitting and scoring engine. *)
Definition Xlengths : Type := matrix * list Z.

(** [d[k]] on an insertion-ordered dictionary; [None] is [KeyError]. *)
Fixpoint dict_get {V : Type} (d : list (string * V)) (k : string) : option V :=
  match d with
  | [] => None
  | (k', v) :: d' => if String.eqb k k' then Some v else dict_get d' k
  end.

(** [range(a, b)]. *)
Definition py_range (a b : Z) : list Z :=
  map (fun k : nat => a + Z.of_nat k) (seq 0 (Z.to_nat (b - a))).

(** The external collaborators.  [hmm_fit n seed X lengths] stands for
    [GaussianHMM(n_components=n, n_iter=1000, random_state=seed).fit(X, lengths)]
    (the [covariance_type="diag"] that [base_model] passes is the library's
    default), [hmm_score m X lengths] for [m.score(X, lengths)],
    [kfold_new seed] for the construction [KFold(random_state=seed)] of
    the splitter, [kfold_split seed seqs] for the folds that the [split]
    method of that splitter produces on [seqs], and [math_log n] for
    [math.log(n)]. *)
Class Adapter : Type := {
  model : Type;
  hmm_fit : Z -> Z -> matrix -> list Z -> option model;
  hmm_score : model -> matrix -> list Z -> option float;
  kfold_new : Z -> option unit;
  kfold_split : Z -> list matrix -> option (list (list nat * list nat));
  combine_sequences : list nat -> list matrix -> option Xlengths;
  math_log : Z -> option float
}.

(** The attributes set by [ModelSelector.__init__]. *)
Record ModelSelector : Type := {
  words : list (string * list matrix);
  hwords : list (string * Xlengths);
  sequences : list matrix;
  X : matrix;
  lengths : list Z;
  this_word : string;
  n_constant : Z;
  min_n_components : Z;
  max_n_components : Z;
  random_state : Z;
  verbose : bool
}.

(** [ModelSelector.__init__]; [None] is the [KeyError] of a missing word. *)
Definition ModelSelector_init
    (all_word_sequences : list (string * list matrix))
    (all_word_Xlengths : list (string * Xlengths)) (word : string)
    (n_const min_n max_n seed : Z) (verb : bool) : option ModelSelector :=
  match dict_get all_word_sequences word, dict_get all_word_Xlengths word with
  | Some seqs, Some (x, ls) =>
      Some {| words := all_word_sequences; hwords := all_word_Xlengths;
              sequences := seqs; X := x; lengths := ls; this_word := word;
              n_constant := n_const; min_n_components := min_n;
              max_n_components := max_n; random_state := seed;
              verbose := verb |}
  | _, _ => None
  end.

(** ** Outcomes, and the monad of the selectors *)

Inductive outcome (A : Type) : Type :=
| Done (a : A)
| Raised.
Arguments Done {A} a.
Arguments Raised {A}.

(** One requested fit: state count, seed, data. *)
Record fit_call : Type := FitCall {
  fc_states : Z;
  fc_seed : Z;
  fc_X : matrix;
  fc_lengths : list Z
}.

(** The variables a search loop assigns ([max_bic], [max_dic] and
    [max_score] all live in [max_score]), and the fits requested so far,
    oldest first. *)
Record search : Type := Search {
  max_score : float;
  max_components : Z;
  fit_log : list fit_call
}.

Definition Py (A : Type) : Type := search -> outcome A * search.

Definition ret {A : Type} (a : A) : Py A := fun st => (Done a, st).

Definition bind {A B : Type} (c : Py A) (k : A -> Py B) : Py B :=
  fun st =>
    match c st with
    | (Done a, st') => k a st'
    | (Raised, st') => (Raised, st')
    end.

Notation "x <- c ;; k" := (bind c (fun x => k))
  (at level 100, c at next level, right associativity).
Notation "c ;;; k" := (bind c (fun _ => k))
  (at level 100, right associativity).

(** A call that answers [None] raises. *)
Definition raise_if_none {A : Type} (o : option A) : Py A :=
  fun st => match o with Some a => (Done a, st) | None => (Raised, st) end.

(** [try: body  except: handler].  Assignments made by [body] before it
    raised stay made. *)
Definition try_except {A : Type} (body handler : Py A) : Py A :=
  fun st =>
    match body st with
    | (Done a, st') => (Done a, st')
    | (Raised, st') => handler st'
    end.

(** [for x in l: body]; an exception leaves the loop. *)
Fixpoint for_in {A : Type} (l : list A) (body : A -> Py unit) : Py unit :=
  match l with
  | [] => ret tt
  | x :: l' => body x ;;; for_in l' body
  end.

Definition get_max_score : Py float := fun st => (Done (max_score st), st).
Definition get_max_components : Py Z :=
  fun st => (Done (max_components st), st).
Definition set_max_score (v : float) : Py unit :=
  fun st => (Done tt, Search v (max_components st) (fit_log st)).
Definition set_max_components (n : Z) : Py unit :=
  fun st => (Done tt, Search (max_score st) n (fit_log st)).

(** [z * x] with [z] an [int] and [x] a [float]. *)
Definition int_mul_float (z : Z) (x : float) : Py float :=
  f <- raise_if_none (PyFloat.of_int z) ;; ret (f * x)%float.

(** [a / b] on two [int]s: [ZeroDivisionError] when [b] is [0].  The
    quotient of the two converted operands is the correctly rounded quotient
    Python computes as long as both are below [2^53] in magnitude, which a
    dictionary size is. *)
Definition int_truediv (a b : Z) : Py float :=
  if b =? 0 then raise_if_none None
  else fa <- raise_if_none (PyFloat.of_int a) ;;
       fb <- raise_if_none (PyFloat.of_int b) ;;
       ret (fa / fb)%float.

Section Selectors.

Context {adapter : Adapter}.

(** [GaussianHMM(n_components=n, ..., random_state=seed).fit(X, lengths)]:
    the request is logged, then the engine answers. *)
Definition GaussianHMM_fit (n seed : Z) (x : matrix) (ls : list Z)
    : Py model :=
  fun st =>
    let st' := Search (max_score st) (max_components st)
                      (fit_log st ++ [FitCall n seed x ls]) in
    match hmm_fit n seed x ls with
    | Some m => (Done m, st')
    | None => (Raised, st')
    end.

(** [ModelSelector.base_model]; the [verbose] prints are not modelled. *)
Definition base_model (self : ModelSelector) (num_states : Z)
    : Py (option model) :=
  try_except
    (hmm_model <- GaussianHMM_fit num_states (random_state self)
                                  (X self) (lengths self) ;;
     ret (Some hmm_model))
    (ret None).

(** [SelectorConstant.select]. *)
Definition SelectorConstant_select (self : ModelSelector)
    : Py (option model) :=
  let best_num_components := n_constant self in
  base_model self best_num_components.

(** The body of the [try] of [SelectorBIC.select] up to the value of
    [bic] (lines 84-93). *)
Definition bic_of (self : ModelSelector) (i : Z) : Py float :=
  model <- GaussianHMM_fit i (random_state self) (X self) (lengths self) ;;
  log_l <- raise_if_none (hmm_score model (X self) (lengths self)) ;;
  let n_data_points := Z.of_nat (length (X self)) in
  n_features <- raise_if_none
                  (option_map (fun row : list float => Z.of_nat (length row))
                              (head (X self))) ;;
  let p := i ^ 2 + 2 * n_features * i - 1 in
  a <- int_mul_float (-2) log_l ;;
  ln_n <- raise_if_none (math_log n_data_points) ;;
  b <- int_mul_float p ln_n ;;
  ret (a + b)%float.

(** One iteration of the loop of [SelectorBIC.select]. *)
Definition bic_iteration (self : ModelSelector) (i : Z) : Py unit :=
  try_except
    (bic <- bic_of self i ;;
     max_bic <- get_max_score ;;
     if PyFloat.lt bic max_bic
     then set_max_score bic ;;; set_max_components i
     else ret tt)
    (ret tt).

(** [SelectorBIC.select]. *)
Definition SelectorBIC_select (self : ModelSelector) : Py (option model) :=
  set_max_components (min_n_components self) ;;;
  set_max_score infinity ;;;
  for_in (py_range (min_n_components self) (max_n_components self + 1))
         (bic_iteration self) ;;;
  n <- get_max_components ;;
  base_model self n.

(** The inner loop of [SelectorDIC.select] (lines 126-130): [word_score]
    accumulates the scores of the other words, in dictionary order. *)
Fixpoint dic_word_score (self : ModelSelector) (model0 : model)
    (items : list (string * Xlengths)) (word_score : float) : Py float :=
  match items with
  | [] => ret word_score
  | (key, (x, lenghts)) :: rest =>
      if String.eqb key (this_word self)
      then dic_word_score self model0 rest word_score
      else s <- raise_if_none (hmm_score model0 x lenghts) ;;
           dic_word_score self model0 rest (word_score + s)%float
  end.

(** The body of the [try] of [SelectorDIC.select] up to the value of
    [dic] (lines 122-131). *)
Definition dic_of (self : ModelSelector) (i : Z) : Py float :=
  model <- GaussianHMM_fit i (random_state self) (X self) (lengths self) ;;
  this_word_score <- raise_if_none
                       (hmm_score model (X self) (lengths self)) ;;
  word_score <- dic_word_score self model (hwords self) 0%float ;;
  inv <- int_truediv 1 (Z.of_nat (length (hwords self)) - 1) ;;
  ret (this_word_score - inv * word_score)%float.

(** One iteration of the loop of [SelectorDIC.select]. *)
Definition dic_iteration (self : ModelSelector) (i : Z) : Py unit :=
  try_except
    (dic <- dic_of self i ;;
     max_dic <- get_max_score ;;
     if PyFloat.gt dic max_dic
     then set_max_score dic ;;; set_max_components i
     else ret tt)
    (ret tt).

(** [SelectorDIC.select]. *)
Definition SelectorDIC_select (self : ModelSelector) : Py (option model) :=
  set_max_components (min_n_components self) ;;;
  set_max_score neg_infinity ;;;
  for_in (py_range (min_n_components self) (max_n_components self + 1))
         (dic_iteration self) ;;;
  n <- get_max_components ;;
  base_model self n.

(** The validation score of one fold at [i] states (lines 157-162). *)
Definition cv_fold_score (self : ModelSelector) (i : Z)
    (fold : list nat * list nat) : Py float :=
  let '(train_idx, text_idx) := fold in
  train <- raise_if_none (combine_sequences train_idx (sequences self)) ;;
  test <- raise_if_none (combine_sequences text_idx (sequences self)) ;;
  model <- GaussianHMM_fit i (random_state self) (fst train) (snd train) ;;
  raise_if_none (hmm_score model (fst test) (snd test)).

(** The body of the inner loop of [SelectorCV.select] (lines 157-166). *)
Definition cv_fold (self : ModelSelector) (i : Z)
    (fold : list nat * list nat) : Py unit :=
  log_l <- cv_fold_score self i fold ;;
  cur <- get_max_score ;;
  if PyFloat.gt log_l cur
  then set_max_score log_l ;;; set_max_components i
  else ret tt.

(** One iteration of the outer loop of [SelectorCV.select] (lines
    154-169).  The [KFold] object is built before the [try]; the folds
    come from its [split], inside the [try]. *)
Definition cv_iteration (self : ModelSelector) (i : Z) : Py unit :=
  split_method <- raise_if_none (kfold_new (random_state self)) ;;
  try_except
    (folds <- raise_if_none
                (kfold_split (random_state self) (sequences self)) ;;
     for_in folds (cv_fold self i))
    (ret tt).

(** [SelectorCV.select]. *)
Definition SelectorCV_select (self : ModelSelector) : Py (option model) :=
  set_max_components (min_n_components self) ;;;
  set_max_score neg_infinity ;;;
  for_in (py_range (min_n_components self) (max_n_components self + 1))
         (cv_iteration self) ;;;
  n <- get_max_components ;;
  base_model self n.

End Selectors.

(** ** The recognizer *)

(** What [recognize] uses of [SinglesData]: [num_items], and
    [get_item_Xlengths], where [None] is a raised exception. *)
Record SinglesData : Type := {
  num_items : nat;
  get_item_Xlengths : nat -> option Xlengths
}.

(** The variables of one pass of the outer loop of [recognize]. *)
Record item_vars : Type := ItemVars {
  max_l : float;
  guess : option string;
  log_l_values : gmap string float
}.

Section Recognizer.

Context {adapter : Adapter}.

(** Lines 30-34: [log_l] starts at [float("-inf")] and is overwritten
    when [model.score] returns.  A model that is [None] has no [score]
    attribute, which raises inside the [try] as well. *)
Definition score_or_neg_inf (m : option model) (x : matrix) (ls : list Z)
    : float :=
  match m with
  | Some m' =>
      match hmm_score m' x ls with
      | Some log_l => log_l
      | None => neg_infinity
      end
  | None => neg_infinity
  end.

(** The inner loop of [recognize] (lines 27-39), over the keys of the
    dictionary in order.  [models[word]] and the access to the test item
    are outside the [try]. *)
Fixpoint recognize_words (models : list (string * option model))
    (test_set : SinglesData) (i : nat) (keys : list string) (v : item_vars)
    : outcome item_vars :=
  match keys with
  | [] => Done v
  | word :: rest =>
      match dict_get models word with
      | None => Raised
      | Some model0 =>
          match get_item_Xlengths test_set i with
          | None => Raised
          | Some (x, ls) =>
              let log_l := score_or_neg_inf model0 x ls in
              let values := <[word := log_l]> (log_l_values v) in
              recognize_words models test_set i rest
                (if PyFloat.gt log_l (max_l v)
                 then ItemVars log_l (Some word) values
                 else ItemVars (max_l v) (guess v) values)
          end
      end
  end.

(** The outer loop of [recognize] (lines 23-42). *)
Fixpoint recognize_items (models : list (string * option model))
    (test_set : SinglesData) (idxs : list nat)
    (probabilities : list (gmap string float))
    (guesses : list (option string))
    : outcome (list (gmap string float) * list (option string)) :=
  match idxs with
  | [] => Done (probabilities, guesses)
  | i :: rest =>
      match recognize_words models test_set i models.*1
              (ItemVars neg_infinity None ∅) with
      | Raised => Raised
      | Done v =>
          recognize_items models test_set rest
            (probabilities ++ [log_l_values v]) (guesses ++ [guess v])
      end
  end.

(** [recognize]. *)
Definition recognize (models : list (string * option model))
    (test_set : SinglesData)
    : outcome (list (gmap string float) * list (option string)) :=
  recognize_items models test_set (seq 0 (num_items test_set)) [] [].

End Recognizer.

(** ** Views used to state the properties *)

(** A running best: the pair (value, who) is replaced by an observation
    exactly when the observed value beats the current one. *)
Definition track_step {T : Type} (better : float -> float -> bool)
    (cur : float * T) (ob : T * float) : float * T :=
  if better ob.2 cur.1 then (ob.2, ob.1) else cur.

Definition track {T : Type} (better : float -> float -> bool)
    (init : float * T) (obs : list (T * float)) : float * T :=
  fold_left (track_step better) obs init.

Definition to_outcome {A : Type} (o : option A) : outcome A :=
  match o with Some a => Done a | None => Raised end.

(** The value a computation returns, [None] when it raises.  It is run
    from an arbitrary state: the computations it is applied to log their
    fits and read nothing of the state (lemma [run_value] below). *)
Definition result_of {A : Type} (c : Py A) : option A :=
  match (c (Search 0%float 0 [])).1 with
  | Done a => Some a
  | Raised => None
  end.

Definition log_fit (st : search) (c : fit_call) : search :=
  Search (max_score st) (max_components st) (fit_log st ++ [c]).

Definition log_fits (st : search) (cs : list fit_call) : search :=
  Search (max_score st) (max_components st) (fit_log st ++ cs).

Section Views.

Context {adapter : Adapter}.

(** The candidate state counts, [range(min, max + 1)]. *)
Definition candidates (self : ModelSelector) : list Z :=
  py_range (min_n_components self) (max_n_components self + 1).

(** The fit of [i] states on the word's full data. *)
Definition fit_of (self : ModelSelector) (i : Z) : fit_call :=
  FitCall i (random_state self) (X self) (lengths self).

Definition full_fit (self : ModelSelector) (i : Z) : option model :=
  hmm_fit i (random_state self) (X self) (lengths self).

Definition bic_value (self : ModelSelector) (i : Z) : option float :=
  result_of (bic_of self i).

Definition dic_value (self : ModelSelector) (i : Z) : option float :=
  result_of (dic_of self i).

(** The candidates that produced a score, with it, in loop order. *)
Definition scored (value : Z -> option float) (cands : list Z)
    : list (Z * float) :=
  omap (fun i => pair i <$> value i) cands.

Definition cv_fold_value (self : ModelSelector) (i : Z)
    (fold : list nat * list nat) : option float :=
  result_of (cv_fold_score self i fold).

(** The validation scores of candidate [i] that the loop gets to see: one
    per fold, up to the first fold that raises. *)
Fixpoint cv_scored (self : ModelSelector) (i : Z)
    (folds : list (list nat * list nat)) : list float :=
  match folds with
  | [] => []
  | fold :: rest =>
      match cv_fold_value self i fold with
      | Some log_l => log_l :: cv_scored self i rest
      | None => []
      end
  end.

Definition cv_candidate_scores (self : ModelSelector) (i : Z)
    : list float :=
  match kfold_split (random_state self) (sequences self) with
  | Some folds => cv_scored self i folds
  | None => []
  end.

(** Every (candidate, fold score) pair observed by [SelectorCV.select],
    in the order of observation. *)
Definition cv_observed (self : ModelSelector) (cands : list Z)
    : list (Z * float) :=
  flat_map (fun i => map (pair i) (cv_candidate_scores self i)) cands.

(** The fits a fold requests, and those a candidate requests. *)
Definition cv_fold_calls (self : ModelSelector) (i : Z)
    (fold : list nat * list nat) : list fit_call :=
  match combine_sequences fold.1 (sequences self),
        combine_sequences fold.2 (sequences self) with
  | Some train, Some _ => [FitCall i (random_state self) train.1 train.2]
  | _, _ => []
  end.

Fixpoint cv_calls (self : ModelSelector) (i : Z)
    (folds : list (list nat * list nat)) : list fit_call :=
  match folds with
  | [] => []
  | fold :: rest =>
      cv_fold_calls self i fold ++
      match cv_fold_value self i fold with
      | Some _ => cv_calls self i rest
      | None => []
      end
  end.

Definition cv_candidate_calls (self : ModelSelector) (i : Z)
    : list fit_call :=
  match kfold_split (random_state self) (sequences self) with
  | Some folds => cv_calls self i folds
  | None => []
  end.

(** The scores of the other words under [m], in dictionary order;
    [None] when one of them raises. *)
Definition other_scores (self : ModelSelector) (m : model)
    : option (list float) :=
  mapM (fun e : string * Xlengths => hmm_score m e.2.1 e.2.2)
       (filter (fun e : string * Xlengths => e.1 ≠ this_word self)
               (hwords self)).

(** The score [recognize] records for an entry of the model collection. *)
Definition item_score (test_set : SinglesData) (i : nat)
    (m : option model) : float :=
  match get_item_Xlengths test_set i with
  | Some (x, ls) => score_or_neg_inf m x ls
  | None => neg_infinity
  end.

(** The (label, score) observations of one test item, in the iteration
    order of the model collection. *)
Definition word_scores (test_set : SinglesData) (i : nat)
    (entries : list (string * option model))
    : list (option string * float) :=
  map (fun e : string * option model =>
         (Some e.1, item_score test_set i e.2)) entries.

(** The dictionary [log_l_values] after the entries were visited. *)
Definition record_scores (test_set : SinglesData) (i : nat)
    (entries : list (string * option model)) (values : gmap string float)
    : gmap string float :=
  fold_left (fun (acc : gmap string float) (e : string * option model) =>
               <[e.1 := item_score test_set i e.2]> acc)
            entries values.

(** The entries met when the given keys are looked up in [models]. *)
Definition lookups (models : list (string * option model))
    (keys : list string) : list (string * option model) :=
  omap (fun w : string => pair w <$> dict_get models w) keys.

(** The entries the inner loop of [recognize] visits: the keys of the
    dictionary, each with the model found under it.  For a dictionary
    (no key twice) these are its entries. *)
Definition visited (models : list (string * option model))
    : list (string * option model) :=
  lookups models models.*1.

Definition item_probabilities (models : list (string * option model))
    (test_set : SinglesData) (i : nat) : gmap string float :=
  record_scores test_set i (visited models) ∅.

Definition item_guess (models : list (string * option model))
    (test_set : SinglesData) (i : nat) : option string :=
  (track PyFloat.gt (neg_infinity, None)
         (word_scores test_set i (visited models))).2.

End Views.

(** Left-to-right float sum starting from [0], as [word_score] is built. *)
Definition float_sum (l : list float) : float :=
  fold_left PrimFloat.add l 0%float.

(** The average of the fold scores of a candidate: the criterion the
    docstring of [SelectorCV] names, and the loop does not compute. *)
Definition fold_average (l : list float) : float :=
  match PyFloat.of_int (Z.of_nat (length l)) with
  | Some n => (float_sum l / n)%float
  | None => nan
  end.

(** Every test item can be fetched. *)
Definition items_accessible (test_set : SinglesData) : Prop :=
  forall i : nat, (i < num_items test_set)%nat ->
    is_Some (get_item_Xlengths test_set i).

(** The effect of one iteration of a BIC or DIC search on the state:
    the fit is logged, and the candidate is recorded exactly when it has a
    value and this value beats the current one. *)
Definition scan_step (better : float -> float -> bool)
    (value : Z -> option float) (call : Z -> fit_call) (i : Z)
    (st : search) : search :=
  let st1 := log_fit st (call i) in
  match value i with
  | Some v => if better v (max_score st) then Search v i (fit_log st1) else st1
  | None => st1
  end.

(** What the proofs use of a comparison: it is a strict order, and total
    on the values that are numbers. *)
Class Beats (better : float -> float -> bool) : Prop := {
  beats_irrefl : forall x, better x x = false;
  beats_trans : forall a b c,
    better a b = true -> better b c = true -> better a c = true;
  beats_total : forall a b c,
    better a c = true -> better b c = false -> is_nan b = false ->
    better a b = true
}.

(** The selector with another search range. *)
Definition with_range (self : ModelSelector) (lo hi : Z) : ModelSelector :=
  {| words := words self; hwords := hwords self; sequences := sequences self;
     X := X self; lengths := lengths self; this_word := this_word self;
     n_constant := n_constant self; min_n_components := lo;
     max_n_components := hi; random_state := random_state self;
     verbose := verbose self |}.

(** Scoring the data under the entry of a model collection raises. *)
Definition score_fails {adapter : Adapter} (m : option model) (x : matrix)
    (ls : list Z) : Prop :=
  match m with
  | Some m' => hmm_score m' x ls = None
  | None => True
  end.

(** The (label, score) pairs recorded for test item [i], in the iteration
    order of the model collection. *)
Definition label_scores {adapter : Adapter}
    (models : list (string * option model)) (test_set : SinglesData)
    (i : nat) : list (string * float) :=
  map (fun e : string * option model => (e.1, item_score test_set i e.2))
      (visited models).

(** The value of [max_l] after the scores were compared in order. *)
Definition max_l_of (scores : list (string * float)) : float :=
  (track PyFloat.gt (neg_infinity, @None string)
         (map (fun e : string * float => (Some e.1, e.2)) scores)).1.

(** [w] is the arg-max label of [scores] with ties going to the first
    label: no score is above the score of [w], and every label before [w]
    has a strictly lower score (or one that is not a number). *)
Definition first_best (scores : list (string * float)) (w : string) : Prop :=
  exists l1 s l2,
    scores = l1 ++ (w, s) :: l2 /\
    (forall e, e ∈ scores -> PyFloat.gt e.2 s = false) /\
    (forall e, e ∈ l1 -> PyFloat.gt s e.2 = true \/ is_nan e.2 = true).

(** The construction of the [KFold] splitter returns. *)
Definition splitter_built {adapter : Adapter} (self : ModelSelector) : Prop :=
  is_Some (kfold_new (random_state self)).

(** The validation score of fold [fold] at [i] states: the score of the
    combined validation sequences under the model fitted on the combined
    training sequences; [None] when one of the four calls raises. *)
Definition validation_score {adapter : Adapter} (self : ModelSelector)
    (i : Z) (fold : list nat * list nat) : option float :=
  match combine_sequences fold.1 (sequences self),
        combine_sequences fold.2 (sequences self) with
  | Some train, Some test =>
      match hmm_fit i (random_state self) train.1 train.2 with
      | Some m => hmm_score m test.1 test.2
      | None => None
      end
  | _, _ => None
  end.

(** The loop over [folds] at [i] states gets to see the validation score
    [s]: [s] is the validation score of a fold, and no fold before it
    raised. *)
Definition fold_score_seen {adapter : Adapter} (self : ModelSelector)
    (i : Z) (folds : list (list nat * list nat)) (s : float) : Prop :=
  exists before fold after,
    folds = before ++ fold :: after /\
    Forall (fun f => is_Some (validation_score self i f)) before /\
    validation_score self i fold = Some s.

(** The fit of candidate [i] on the word's data, or the score of that
    data under the fitted model, raises. *)
Definition fit_or_score_raises {adapter : Adapter} (self : ModelSelector)
    (i : Z) : Prop :=
  match full_fit self i with
  | Some m => hmm_score m (X self) (lengths self) = None
  | None => True
  end.

(** Candidate [i] of the cross-validation search raises: the split
    raises, or the combination, the fit or the score of one of the folds
    does. *)
Definition cv_candidate_raises {adapter : Adapter} (self : ModelSelector)
    (i : Z) : Prop :=
  match kfold_split (random_state self) (sequences self) with
  | Some folds => exists fold, fold ∈ folds /\ cv_fold_value self i fold = None
  | None => True
  end.

(** An iteration that leaves the comparison as it found it. *)
Definition skipped (iteration : Py unit) (st : search) : Prop :=
  max_score (iteration st).2 = max_score st /\
  max_components (iteration st).2 = max_components st.

(** ** A small concrete setting

    Three training sequences of one feature, of 1, 2 and 3 frames, for the
    word JOHN, one sequence of 4 frames for MARY, and an engine given by
    tables.  A model remembers its state count and the lengths it was
    trained on; its score depends on the state count and on the lengths of
    the scored data. *)

Module Toy.

Definition seq0 : matrix := [[1%float]].
Definition seq1 : matrix := [[2%float]; [2.5%float]].
Definition seq2 : matrix := [[3%float]; [3.5%float]; [4%float]].
Definition mary0 : matrix := [[7%float]; [7.5%float]; [8%float]; [8.5%float]].

(** [asl_utils.combine_sequences]. *)
Definition combine (idx : list nat) (seqs : list matrix) : option Xlengths :=
  folds ← mapM (fun k : nat => seqs !! k) idx;
  Some (concat folds, map (fun sq : matrix => Z.of_nat (length sq)) folds).

(** Three folds over three sequences, as [KFold] without shuffling makes
    them; fewer sequences than folds is an error. *)
Definition split (seed : Z) (seqs : list matrix)
    : option (list (list nat * list nat)) :=
  if bool_decide (length seqs = 3%nat)
  then Some [([1; 2], [0]); ([0; 2], [1]); ([0; 1], [2])]%nat
  else None.

(** Fitting 2 states on the sequences of 1 and 3 frames does not
    converge; a state count below 1 is refused. *)
Definition fit (n seed : Z) (x : matrix) (ls : list Z)
    : option (Z * list Z) :=
  if bool_decide (n = 2 /\ ls = [1; 3]) then None
  else if bool_decide (n <= 0) then None
  else Some (n, ls).

Definition score_table : list (Z * list Z * float) :=
  [ (2, [1], (-10)%float);
    (3, [1], (-20)%float); (3, [2], (-30)%float); (3, [3], (-25)%float);
    (5, [1], (-15)%float); (5, [2], (-200)%float); (5, [3], (-200)%float);
    (2, [1; 2; 3], (-60)%float); (3, [1; 2; 3], (-50)%float);
    (2, [4], (-90)%float); (3, [4], (-55)%float) ].

Definition score (m : Z * list Z) (x : matrix) (ls : list Z)
    : option float :=
  (fun hit : nat * (Z * list Z * float) => hit.2.2) <$>
    list_find (fun e : Z * list Z * float => e.1 = (m.1, ls)) score_table.

Definition log (n : Z) : option float :=
  if bool_decide (n = 2) then Some 0x1.62e42fefa39efp-1%float
  else if bool_decide (n = 6) then Some 0x1.cab0bfa2a2002p+0%float
  else None.

Definition engine : Adapter :=
  {| model := Z * list Z; hmm_fit := fit; hmm_score := score;
     kfold_new := fun _ => Some tt; kfold_split := split; combine_sequences := combine; math_log := log |}.

Definition all_sequences : list (string * list matrix) :=
  [("JOHN", [seq0; seq1; seq2]); ("MARY", [mary0])].

Definition all_Xlengths : list (string * Xlengths) :=
  [("JOHN", (seq0 ++ seq1 ++ seq2, [1; 2; 3]));
   ("MARY", (mary0, [4]))].

(** The selector built for JOHN with the range [2, 4]. *)
Definition john : ModelSelector :=
  {| words := all_sequences; hwords := all_Xlengths;
     sequences := [seq0; seq1; seq2]; X := seq0 ++ seq1 ++ seq2;
     lengths := [1; 2; 3]; this_word := "JOHN"; n_constant := 3;
     min_n_components := 2; max_n_components := 4; random_state := 14;
     verbose := false |}.

Definition start : search := Search 0%float 0 [].

Definition models : list (string * option (Z * list Z)) :=
  [("JOHN", Some (2, [1; 2; 3])); ("MARY", Some (3, [1; 2; 3]))].

(** Two test items: one frame, which both models score, and five frames,
    which no model scores. *)
Definition test_set : SinglesData :=
  {| num_items := 2;
     get_item_Xlengths := fun i =>
       match i with
       | O => Some (seq0, [1])
       | 1%nat => Some (mary0 ++ seq0, [5])
       | _ => None
       end |}.

(** One test item that no model scores. *)
Definition unscored_set : SinglesData :=
  {| num_items := 1;
     get_item_Xlengths := fun _ => Some (mary0 ++ seq0, [5]) |}.

(** One test item whose access raises. *)
Definition broken_set : SinglesData :=
  {| num_items := 1; get_item_Xlengths := fun _ => None |}.

End Toy.

(** [ModelSelector.select], the method the four selectors override. *)
Definition ModelSelector_select {adapter : Adapter} (self : ModelSelector)
    : Py (option model) :=
  raise_if_none None.

(** The fits a search added to the log: those of the final log beyond the
    initial one. *)
Definition new_fits (st st' : search) : list fit_call :=
  drop (length (fit_log st)) (fit_log st').

(** ** More of the concrete setting *)

Module Toy2.

(** JOHN as the only word of the dictionary. *)
Definition john_alone : ModelSelector :=
  {| words := [("JOHN", [Toy.seq0; Toy.seq1; Toy.seq2])];
     hwords := [("JOHN", (Toy.seq0 ++ Toy.seq1 ++ Toy.seq2, [1; 2; 3]))];
     sequences := [Toy.seq0; Toy.seq1; Toy.seq2];
     X := Toy.seq0 ++ Toy.seq1 ++ Toy.seq2;
     lengths := [1; 2; 3]; this_word := "JOHN"; n_constant := 3;
     min_n_components := 2; max_n_components := 4; random_state := 14;
     verbose := false |}.

(** A word without a single frame. *)
Definition no_frames : ModelSelector :=
  {| words := [("IX", [])]; hwords := [("IX", ([], []))];
     sequences := []; X := []; lengths := []; this_word := "IX";
     n_constant := 3; min_n_components := 2; max_n_components := 4;
     random_state := 14; verbose := false |}.

(** A word with two sequences only, which the three-fold split refuses. *)
Definition two_sequences : ModelSelector :=
  {| words := [("GO", [Toy.seq0; Toy.seq1])];
     hwords := [("GO", (Toy.seq0 ++ Toy.seq1, [1; 2]))];
     sequences := [Toy.seq0; Toy.seq1]; X := Toy.seq0 ++ Toy.seq1;
     lengths := [1; 2]; this_word := "GO"; n_constant := 3;
     min_n_components := 2; max_n_components := 4; random_state := 14;
     verbose := false |}.

(** Two test items, the second of which cannot be fetched. *)
Definition half_broken_set : SinglesData :=
  {| num_items := 2;
     get_item_Xlengths := fun i =>
       match i with
       | O => Some (Toy.seq0, [1])
       | _ => None
       end |}.

(** The two items of [Toy.test_set] followed by a third one. *)
Definition longer_set : SinglesData :=
  {| num_items := 3;
     get_item_Xlengths := fun i =>
       match i with
       | O => Some (Toy.seq0, [1])
       | 1%nat => Some (Toy.mary0 ++ Toy.seq0, [5])
       | _ => Some (Toy.seq1, [2])
       end |}.

(** The toy engine with a [KFold] that refuses to be built, as a splitter
    does that rejects [random_state] without shuffling. *)
Definition strict_engine : Adapter :=
  {| model := Z * list Z; hmm_fit := Toy.fit; hmm_score := Toy.score;
     kfold_new := fun _ => None; kfold_split := Toy.split;
     combine_sequences := Toy.combine; math_log := Toy.log |}.

End Toy2.

(** ** Facts about float comparison *)

Module PyFloatFacts.
Import PyFloat.

Lemma SFcompare_key x y kx ky :
  key x = Some kx -> key y = Some ky ->
  SFcompare x y = Some Lt <-> lex_lt kx ky.
Proof.
  destruct x as [sx|sx| |sx mx ex], y as [sy|sy| |sy my ey];
    try destruct sx; try destruct sy; simpl; intros Hx Hy;
    try discriminate; inversion Hx; inversion Hy; subst; clear Hx Hy;
    unfold lex_lt;
    try (split; [intros H; try discriminate H; lia
                | intros H; try reflexivity; lia]).
  all: change (PosDef.Pos.compare_cont Eq mx my) with (Pos.compare mx my).
  all: destruct (Z.compare_spec ex ey); destruct (Pos.compare_spec mx my);
    simpl; (split; [intros H'; try discriminate H'; lia
                   | intros H'; try reflexivity; lia]).
Qed.

Lemma SFcompare_nan_l x y : key x = None -> SFcompare x y = None.
Proof.
  destruct x as [|[]| |[]]; simpl; intros; try discriminate; reflexivity.
Qed.

Lemma SFcompare_nan_r x y : key y = None -> SFcompare x y = None.
Proof.
  destruct y as [|[]| |[]]; simpl; intros; try discriminate;
    destruct x; reflexivity.
Qed.

Lemma ltb_key x y :
  (x <? y)%float = true <->
  exists kx ky, fkey x = Some kx /\ fkey y = Some ky /\ lex_lt kx ky.
Proof.
  rewrite FloatAxioms.ltb_spec. unfold SFltb, fkey.
  destruct (key (Prim2SF x)) as [kx|] eqn:Hx.
  2:{ rewrite SFcompare_nan_l by done. split; [done|].
      intros (?&?&?&_); done. }
  destruct (key (Prim2SF y)) as [ky|] eqn:Hy.
  2:{ rewrite SFcompare_nan_r by done. split; [done|].
      intros (?&?&?&?&_); done. }
  pose proof (SFcompare_key _ _ _ _ Hx Hy) as HK.
  split.
  - intros H. exists kx, ky. split_and!; try done. apply HK.
    destruct (SFcompare _ _) as [[]|]; done.
  - intros (kx'&ky'&?&?&Hl). simplify_eq. apply HK in Hl. by rewrite Hl.
Qed.

Lemma is_nan_key x : is_nan x = false <-> is_Some (fkey x).
Proof.
  unfold is_nan, fkey. rewrite FloatAxioms.eqb_spec. unfold SFeqb.
  destruct (Prim2SF x) as [s|[]| |[] m e]; simpl;
    rewrite ?Z.compare_refl;
    try change (PosDef.Pos.compare_cont Eq m m) with (Pos.compare m m);
    rewrite ?Pos.compare_refl; simpl; split; intros H;
    try done; try (by eexists); try (by destruct H).
Qed.

Lemma ltb_false_key x y kx ky :
  fkey x = Some kx -> fkey y = Some ky ->
  (x <? y)%float = false -> ~ lex_lt kx ky.
Proof.
  intros Hx Hy Hf Hl.
  assert ((x <? y)%float = true) as Ht by (apply ltb_key; eauto).
  congruence.
Qed.

Ltac lex_lia :=
  repeat match goal with
         | k : (Z * Z * Z)%type |- _ => destruct k as [[? ?] ?]
         end;
  unfold lex_lt in *; lia.

Lemma ltb_irrefl x : (x <? x)%float = false.
Proof.
  destruct (x <? x)%float eqn:H; [|done].
  apply ltb_key in H as (kx&ky&Hx&Hy&Hl). simplify_eq. lex_lia.
Qed.

Lemma ltb_trans x y z :
  (x <? y)%float = true -> (y <? z)%float = true -> (x <? z)%float = true.
Proof.
  intros (kx&ky&Hx&Hy&Hl)%ltb_key (ky'&kz&Hy'&Hz&Hl')%ltb_key.
  simplify_eq. apply ltb_key. exists kx, kz. split_and!; try done. lex_lia.
Qed.

(** [c < a], not [c < b], and [b] is a number: then [b < a]. *)
Lemma ltb_below x y z :
  (x <? z)%float = true -> (x <? y)%float = false -> is_nan y = false ->
  (y <? z)%float = true.
Proof.
  intros (kx&kz&Hx&Hz&Hl)%ltb_key Hf [ky Hy]%is_nan_key.
  pose proof (ltb_false_key _ _ _ _ Hx Hy Hf).
  apply ltb_key. exists ky, kz. split_and!; try done. lex_lia.
Qed.

(** [a < c], not [b < c], and [b] is a number: then [a < b]. *)
Lemma ltb_above x y z :
  (x <? z)%float = true -> (y <? z)%float = false -> is_nan y = false ->
  (x <? y)%float = true.
Proof.
  intros (kx&kz&Hx&Hz&Hl)%ltb_key Hf [ky Hy]%is_nan_key.
  pose proof (ltb_false_key _ _ _ _ Hy Hz Hf).
  apply ltb_key. exists kx, ky. split_and!; try done. lex_lia.
Qed.

(** A value above [-inf] or below [+inf] is a number. *)
Lemma ltb_not_nan_r x y : (x <? y)%float = true -> is_nan y = false.
Proof. intros (kx&ky&Hx&Hy&_)%ltb_key. apply is_nan_key. eauto. Qed.

Lemma ltb_not_nan_l x y : (x <? y)%float = true -> is_nan x = false.
Proof. intros (kx&ky&Hx&Hy&_)%ltb_key. apply is_nan_key. eauto. Qed.

End PyFloatFacts.

#[global] Instance gt_beats : Beats PyFloat.gt.
Proof.
  split; unfold PyFloat.gt.
  - apply PyFloatFacts.ltb_irrefl.
  - intros a b c Hab Hbc. exact (PyFloatFacts.ltb_trans c b a Hbc Hab).
  - intros a b c Hac Hbc Hb. exact (PyFloatFacts.ltb_below c b a Hac Hbc Hb).
Qed.

#[global] Instance lt_beats : Beats PyFloat.lt.
Proof.
  split; unfold PyFloat.lt.
  - apply PyFloatFacts.ltb_irrefl.
  - intros a b c. apply PyFloatFacts.ltb_trans.
  - intros a b c Hac Hbc Hb. exact (PyFloatFacts.ltb_above a b c Hac Hbc Hb).
Qed.

(** ** The running best *)

Section Tracking.

Context {T : Type} (better : float -> float -> bool) `{!Beats better}.

Implicit Types (cur init : float * T) (ob : T * float).

Lemma track_snoc init obs ob :
  track better init (obs ++ [ob]) =
  track_step better (track better init obs) ob.
Proof. unfold track. by rewrite fold_left_app. Qed.

Lemma track_app init obs1 obs2 :
  track better init (obs1 ++ obs2) =
  track better (track better init obs1) obs2.
Proof. unfold track. by rewrite fold_left_app. Qed.

Lemma track_step_keeps v cur ob :
  better v cur.1 = false -> better v (track_step better cur ob).1 = false.
Proof.
  intros Hv. unfold track_step.
  destruct (better ob.2 cur.1) eqn:Hob; simpl; [|done].
  destruct (better v ob.2) eqn:Hvo; [|done].
  by rewrite (beats_trans _ _ _ Hvo Hob) in Hv.
Qed.

Lemma track_step_self cur ob :
  better ob.2 (track_step better cur ob).1 = false.
Proof.
  unfold track_step. destruct (better ob.2 cur.1) eqn:Hob; simpl; [|done].
  apply beats_irrefl.
Qed.

(** No observation beats the tracked value. *)
Lemma track_bound init obs ob :
  ob ∈ obs -> better ob.2 (track better init obs).1 = false.
Proof.
  induction obs as [|ob' obs IH] using rev_ind; [by intros ?%elem_of_nil|].
  rewrite track_snoc. intros [Hin| ->%list_elem_of_singleton]%elem_of_app.
  - by apply track_step_keeps, IH.
  - apply track_step_self.
Qed.

(** Either nothing beat the initial value, or the tracked pair is an
    observation that beat it; the observations before it are strictly
    worse (or not numbers) and those after it are not better. *)
Lemma track_origin init obs :
  (track better init obs = init /\
   forall ob, ob ∈ obs -> better ob.2 init.1 = false) \/
  (exists l1 t v l2,
     obs = l1 ++ (t, v) :: l2 /\ track better init obs = (v, t) /\
     better v init.1 = true /\
     (forall ob, ob ∈ l1 -> better v ob.2 = true \/ is_nan ob.2 = true) /\
     (forall ob, ob ∈ l2 -> better ob.2 v = false)).
Proof.
  induction obs as [|ob obs IH] using rev_ind.
  { left. split; [done|]. by intros ? ?%elem_of_nil. }
  rewrite track_snoc.
  assert (forall cur, track_step better cur ob =
            if better ob.2 cur.1 then (ob.2, ob.1) else cur) as -> by done.
  destruct (better ob.2 (track better init obs).1) eqn:Hob.
  - right. exists obs, ob.1, ob.2, []. split_and!.
    + by destruct ob.
    + done.
    + destruct IH as [[Heq _]|(l1&t&v&l2&_&Heq&Hv&_)];
        rewrite Heq in Hob; [done|].
      exact (beats_trans _ _ _ Hob Hv).
    + intros ob' Hin. destruct (is_nan ob'.2) eqn:Hnan; [by right|left].
      eapply beats_total; [exact Hob| |done].
      by apply track_bound.
    + by intros ? ?%elem_of_nil.
  - destruct IH as [[Heq Hall]|(l1&t&v&l2&Hobs&Heq&Hv&Hl1&Hl2)].
    + left. split; [done|].
      intros ob' [Hin| ->%list_elem_of_singleton]%elem_of_app; [by apply Hall|].
      by rewrite Heq in Hob.
    + right. exists l1, t, v, (l2 ++ [ob]). split_and!; try done.
      * by rewrite Hobs, <- app_assoc.
      * intros ob' [Hin| ->%list_elem_of_singleton]%elem_of_app; [by apply Hl2|].
        by rewrite Heq in Hob.
Qed.

End Tracking.

(** ** What the monadic code computes *)

Section Runs.

Context {adapter : Adapter}.

Implicit Types (self : ModelSelector) (st : search) (i n : Z).

Ltac run_options :=
  repeat (cbn -[PyFloat.of_int];
          match goal with
          | |- context [match ?o with Some _ => _ | None => _ end] =>
              destruct o
          | |- context [if ?b then _ else _] => destruct b
          end);
  cbn -[PyFloat.of_int]; try done.

Lemma log_fits_app st cs1 cs2 :
  log_fits (log_fits st cs1) cs2 = log_fits st (cs1 ++ cs2).
Proof. unfold log_fits; simpl. by rewrite <- app_assoc. Qed.

Lemma GaussianHMM_fit_run n seed x ls st :
  GaussianHMM_fit n seed x ls st =
  (to_outcome (hmm_fit n seed x ls), log_fit st (FitCall n seed x ls)).
Proof. unfold GaussianHMM_fit, log_fit. by destruct (hmm_fit _ _ _ _). Qed.

Lemma base_model_run self n st :
  base_model self n st = (Done (full_fit self n), log_fit st (fit_of self n)).
Proof.
  unfold base_model, try_except, bind, ret, full_fit, fit_of.
  rewrite GaussianHMM_fit_run. by destruct (hmm_fit _ _ _ _).
Qed.

(** A computation whose outcome does not depend on the state it starts
    from returns [result_of] it. *)
Lemma run_value {A : Type} (c : Py A) (f : search -> search) :
  (forall st st0, (c st).1 = (c st0).1 /\ (c st).2 = f st) ->
  forall st, c st = (to_outcome (result_of c), f st).
Proof.
  intros H st. destruct (H st (Search 0%float 0 [])) as [H1 H2].
  unfold result_of. rewrite <- H1.
  destruct (c st) as [[a|] st']; simpl in *; by subst.
Qed.

Lemma bic_of_run self i st :
  bic_of self i st =
  (to_outcome (bic_value self i), log_fit st (fit_of self i)).
Proof.
  revert st. apply run_value. intros st st0.
  unfold bic_of, bind, int_mul_float, bind, raise_if_none, ret, fit_of.
  rewrite !GaussianHMM_fit_run. unfold to_outcome. run_options.
Qed.

Lemma dic_word_score_run self m items acc :
  exists o, forall st, dic_word_score self m items acc st = (to_outcome o, st).
Proof.
  revert acc.
  induction items as [|[key [x ls]] rest IH]; intros acc; simpl.
  { by exists (Some acc). }
  destruct (String.eqb key (this_word self)); [apply IH|].
  unfold bind, raise_if_none. destruct (hmm_score m x ls) as [s|].
  - apply IH.
  - by exists None.
Qed.

Lemma dic_of_run self i st :
  dic_of self i st =
  (to_outcome (dic_value self i), log_fit st (fit_of self i)).
Proof.
  revert st. apply run_value. intros st st0.
  unfold dic_of, bind, int_truediv, bind, raise_if_none, ret, fit_of.
  rewrite !GaussianHMM_fit_run.
  destruct (hmm_fit _ _ _ _) as [m|]; cbn -[PyFloat.of_int]; [|done].
  destruct (hmm_score m _ _) as [own|]; cbn -[PyFloat.of_int]; [|done].
  destruct (dic_word_score_run self m (hwords self) 0%float) as [o Ho].
  rewrite !Ho. unfold to_outcome. destruct o; run_options.
Qed.

Lemma bic_iteration_run self i st :
  bic_iteration self i st =
  (Done tt, scan_step PyFloat.lt (bic_value self) (fit_of self) i st).
Proof.
  unfold bic_iteration, try_except, bind, scan_step. rewrite bic_of_run.
  destruct (bic_value self i) as [v|]; simpl; [|done].
  unfold get_max_score; simpl. by destruct (PyFloat.lt _ _).
Qed.

Lemma dic_iteration_run self i st :
  dic_iteration self i st =
  (Done tt, scan_step PyFloat.gt (dic_value self) (fit_of self) i st).
Proof.
  unfold dic_iteration, try_except, bind, scan_step. rewrite dic_of_run.
  destruct (dic_value self i) as [v|]; simpl; [|done].
  unfold get_max_score; simpl. by destruct (PyFloat.gt _ _).
Qed.

(** A loop whose iterations are [scan_step]s tracks the best value among
    the candidates that have one, and logs one fit per candidate. *)
Lemma scan_run better value call (iter : Z -> Py unit) :
  (forall i st, iter i st = (Done tt, scan_step better value call i st)) ->
  forall cands st,
    for_in cands iter st =
    (Done tt,
     let r := track better (max_score st, max_components st)
                    (scored value cands) in
     Search r.1 r.2 (fit_log st ++ map call cands)).
Proof.
  intros Hiter cands. induction cands as [|i cands IH]; intros st.
  { simpl. rewrite app_nil_r. by destruct st. }
  cbn [for_in]. unfold bind at 1. rewrite Hiter, IH. f_equal.
  unfold scan_step, scored. cbn [omap list_omap map].
  destruct (value i) as [v|]; simpl.
  - unfold track_step; simpl.
    destruct (better v (max_score st)); simpl; by rewrite <- app_assoc.
  - by rewrite <- app_assoc.
Qed.

Lemma cv_fold_score_run self i fold st :
  cv_fold_score self i fold st =
  (to_outcome (cv_fold_value self i fold),
   log_fits st (cv_fold_calls self i fold)).
Proof.
  revert st. unfold cv_fold_value. apply run_value. intros st st0.
  unfold cv_fold_score, cv_fold_calls, bind, raise_if_none, log_fits.
  destruct fold as [train_idx text_idx]; simpl.
  destruct (combine_sequences train_idx _) as [train|]; simpl;
    [|by rewrite app_nil_r; destruct st].
  destruct (combine_sequences text_idx _) as [test|]; simpl;
    [|by rewrite app_nil_r; destruct st].
  rewrite !GaussianHMM_fit_run. unfold to_outcome. run_options.
Qed.

Lemma cv_folds_run self i folds st :
  exists o,
    for_in folds (cv_fold self i) st =
    (o,
     let r := track PyFloat.gt (max_score st, max_components st)
                    (map (pair i) (cv_scored self i folds)) in
     Search r.1 r.2 (fit_log st ++ cv_calls self i folds)).
Proof.
  revert st. induction folds as [|fold folds IH]; intros st.
  { exists (Done tt). simpl. rewrite app_nil_r. by destruct st. }
  cbn [for_in cv_scored cv_calls]. unfold bind at 1, cv_fold at 1.
  unfold bind at 1. rewrite cv_fold_score_run.
  destruct (cv_fold_value self i fold) as [log_l|]; simpl.
  2:{ exists Raised. by rewrite app_nil_r. }
  unfold bind, get_max_score; cbn [fst snd max_score].
  unfold track_step; cbn [fst snd]. unfold log_fits at 1; cbn [max_score].
  destruct (PyFloat.gt log_l (max_score st)).
  - destruct (IH (Search log_l i (fit_log st ++ cv_fold_calls self i fold)))
      as [o Ho]. exists o. simpl in *. rewrite Ho. by rewrite <- app_assoc.
  - destruct (IH (log_fits st (cv_fold_calls self i fold))) as [o Ho].
    exists o. simpl in *. rewrite Ho. by rewrite <- app_assoc.
Qed.

Lemma cv_iteration_run self i st :
  splitter_built self ->
  cv_iteration self i st =
  (Done tt,
   let r := track PyFloat.gt (max_score st, max_components st)
                  (map (pair i) (cv_candidate_scores self i)) in
   Search r.1 r.2 (fit_log st ++ cv_candidate_calls self i)).
Proof.
  intros [[] Hnew].
  unfold cv_iteration, try_except, bind, raise_if_none,
    cv_candidate_scores, cv_candidate_calls. rewrite Hnew.
  destruct (kfold_split _ _) as [folds|]; simpl.
  2:{ rewrite app_nil_r. by destruct st. }
  destruct (cv_folds_run self i folds st) as [o ->]. by destruct o as [[]|].
Qed.

Lemma cv_loop_run self cands st :
  cands = [] \/ splitter_built self ->
  for_in cands (cv_iteration self) st =
  (Done tt,
   let r := track PyFloat.gt (max_score st, max_components st)
                  (cv_observed self cands) in
   Search r.1 r.2 (fit_log st ++ flat_map (cv_candidate_calls self) cands)).
Proof.
  intros Hbuilt. revert st. induction cands as [|i cands IH]; intros st.
  { simpl. rewrite app_nil_r. by destruct st. }
  destruct Hbuilt as [?|Hbuilt]; [done|].
  cbn [for_in]. unfold bind at 1.
  rewrite cv_iteration_run, IH by (done || by right).
  unfold cv_observed. cbn [flat_map]. rewrite track_app. simpl.
  destruct (track _ _ (map _ _)); simpl. by rewrite <- app_assoc.
Qed.

(** The three searching selectors: the winner of the search, then one
    more fit, of the winner on the full data, which is what is returned. *)
Lemma SelectorBIC_select_run self st :
  let r := track PyFloat.lt (infinity, min_n_components self)
                 (scored (bic_value self) (candidates self)) in
  SelectorBIC_select self st =
  (Done (full_fit self r.2),
   Search r.1 r.2
     (fit_log st ++ map (fit_of self) (candidates self) ++ [fit_of self r.2])).
Proof.
  unfold SelectorBIC_select, bind at 1 2 3 4; simpl.
  rewrite (scan_run _ _ _ _ (bic_iteration_run self)); simpl.
  rewrite base_model_run. unfold log_fit; simpl. by rewrite <- app_assoc.
Qed.

Lemma SelectorDIC_select_run self st :
  let r := track PyFloat.gt (neg_infinity, min_n_components self)
                 (scored (dic_value self) (candidates self)) in
  SelectorDIC_select self st =
  (Done (full_fit self r.2),
   Search r.1 r.2
     (fit_log st ++ map (fit_of self) (candidates self) ++ [fit_of self r.2])).
Proof.
  unfold SelectorDIC_select, bind at 1 2 3 4; simpl.
  rewrite (scan_run _ _ _ _ (dic_iteration_run self)); simpl.
  rewrite base_model_run. unfold log_fit; simpl. by rewrite <- app_assoc.
Qed.

Lemma SelectorCV_select_run self st :
  candidates self = [] \/ splitter_built self ->
  let r := track PyFloat.gt (neg_infinity, min_n_components self)
                 (cv_observed self (candidates self)) in
  SelectorCV_select self st =
  (Done (full_fit self r.2),
   Search r.1 r.2
     (fit_log st ++ flat_map (cv_candidate_calls self) (candidates self)
        ++ [fit_of self r.2])).
Proof.
  intros Hbuilt. unfold SelectorCV_select, bind at 1 2 3 4; simpl.
  rewrite cv_loop_run by done; simpl.
  rewrite base_model_run. unfold log_fit; simpl. by rewrite <- app_assoc.
Qed.

Lemma SelectorConstant_select_run self st :
  SelectorConstant_select self st =
  (Done (full_fit self (n_constant self)),
   log_fit st (fit_of self (n_constant self))).
Proof. apply base_model_run. Qed.

End Runs.

(** ** What the recognizer computes *)

Section RecognizerRuns.

Context {adapter : Adapter}.

Implicit Types (models entries : list (string * option model))
  (test_set : SinglesData) (i : nat) (v : item_vars).

Lemma dict_get_elem {V : Type} (d : list (string * V)) (k : string) (x : V) :
  dict_get d k = Some x -> (k, x) ∈ d.
Proof.
  induction d as [|[k' x'] d IH]; [done|]. cbn.
  destruct (String.eqb_spec k k') as [->|Hne].
  - intros [= ->]. left.
  - intros H. right. by apply IH.
Qed.

Lemma dict_get_key {V : Type} (d : list (string * V)) (k : string) :
  k ∈ d.*1 -> is_Some (dict_get d k).
Proof.
  induction d as [|[k' x'] d IH]; [by intros ?%elem_of_nil|]. cbn.
  destruct (String.eqb_spec k k') as [->|Hne]; [by eexists|].
  intros [?|?]%elem_of_cons; [done|by apply IH].
Qed.

Lemma dict_get_NoDup {V : Type} (d : list (string * V)) (k : string) (x : V) :
  NoDup d.*1 -> (k, x) ∈ d -> dict_get d k = Some x.
Proof.
  induction d as [|[k' x'] d IH]; [by intros _ ?%elem_of_nil|].
  rewrite fmap_cons, NoDup_cons. cbn. intros [Hk Hnd] Hin.
  apply elem_of_cons in Hin as [[= -> ->]|Hin].
  - by rewrite String.eqb_refl.
  - destruct (String.eqb_spec k k') as [->|Hne]; [|by apply IH].
    destruct Hk. apply list_elem_of_fmap. by exists (k', x).
Qed.

Lemma lookups_keys models (keys : list string) :
  (forall w, w ∈ keys -> w ∈ models.*1) -> (lookups models keys).*1 = keys.
Proof.
  unfold lookups. induction keys as [|w keys IH]; intros Hkeys; [done|].
  cbn. destruct (dict_get_key models w) as [m ->]; [apply Hkeys; left|].
  cbn. f_equal. apply IH. intros w' Hw'. apply Hkeys. by right.
Qed.

Lemma lookups_dict models entries :
  NoDup models.*1 -> (forall e, e ∈ entries -> e ∈ models) ->
  lookups models entries.*1 = entries.
Proof.
  intros Hnd. unfold lookups.
  induction entries as [|[w m] entries IH]; intros Hin; [done|].
  cbn. rewrite (dict_get_NoDup models w m) by (done || apply Hin; left).
  cbn. f_equal. apply IH. intros e He. apply Hin. by right.
Qed.

Lemma visited_keys models : (visited models).*1 = models.*1.
Proof. by apply lookups_keys. Qed.

Lemma visited_dict models : NoDup models.*1 -> visited models = models.
Proof. intros Hnd. by apply lookups_dict. Qed.

Lemma visited_elem models e : e ∈ visited models -> e ∈ models.
Proof.
  unfold visited, lookups. intros (w & _ & Hw)%list_elem_of_omap.
  destruct (dict_get models w) as [m|] eqn:Hm; [|done].
  injection Hw as <-. by apply dict_get_elem.
Qed.

Lemma recognize_words_run models test_set i keys v :
  (forall w, w ∈ keys -> w ∈ models.*1) ->
  is_Some (get_item_Xlengths test_set i) ->
  recognize_words models test_set i keys v =
  Done (let entries := lookups models keys in
        let r := track PyFloat.gt (max_l v, guess v)
                       (word_scores test_set i entries) in
        ItemVars r.1 r.2 (record_scores test_set i entries (log_l_values v))).
Proof.
  intros Hkeys [[x ls] Hitem]. revert v.
  induction keys as [|word rest IH]; intros v; [by destruct v|].
  cbn [recognize_words]. unfold lookups in *. cbn [omap list_omap].
  destruct (dict_get_key models word) as [m ->]; [apply Hkeys; left|].
  rewrite Hitem, IH by (intros w Hw; apply Hkeys; by right).
  unfold word_scores, record_scores, track, item_score.
  cbn [fmap option_fmap option_map map fold_left fst snd]. rewrite Hitem.
  unfold track_step; cbn [fst snd].
  by destruct (PyFloat.gt (score_or_neg_inf m x ls) (max_l v)).
Qed.

Lemma recognize_words_raises models test_set i keys v :
  get_item_Xlengths test_set i = None -> keys <> [] ->
  recognize_words models test_set i keys v = Raised.
Proof.
  intros Hitem Hne. destruct keys as [|word rest]; [done|].
  cbn. rewrite Hitem. by destruct (dict_get models word).
Qed.

Lemma recognize_items_run models test_set idxs ps gs :
  (forall i, i ∈ idxs -> is_Some (get_item_Xlengths test_set i)) ->
  recognize_items models test_set idxs ps gs =
  Done (ps ++ map (item_probabilities models test_set) idxs,
        gs ++ map (item_guess models test_set) idxs).
Proof.
  revert ps gs. induction idxs as [|i idxs IH]; intros ps gs Hacc.
  { simpl. by rewrite !app_nil_r. }
  cbn [recognize_items map].
  rewrite recognize_words_run by (done || apply Hacc; left).
  cbn zeta. rewrite IH by (intros j Hj; apply Hacc; by right).
  cbn [log_l_values guess max_l]. by rewrite <- !app_assoc.
Qed.

Lemma recognize_items_no_models test_set idxs ps gs :
  recognize_items [] test_set idxs ps gs =
  Done (ps ++ map (item_probabilities [] test_set) idxs,
        gs ++ map (item_guess [] test_set) idxs).
Proof.
  revert ps gs. induction idxs as [|i idxs IH]; intros ps gs.
  { simpl. by rewrite !app_nil_r. }
  cbn [recognize_items map recognize_words fmap list_fmap]. rewrite IH.
  by rewrite <- !app_assoc.
Qed.

Lemma recognize_run models test_set :
  models = [] \/ items_accessible test_set ->
  recognize models test_set =
  Done (map (item_probabilities models test_set)
            (seq 0 (num_items test_set)),
        map (item_guess models test_set) (seq 0 (num_items test_set))).
Proof.
  intros [->|Hacc]; unfold recognize.
  - by rewrite recognize_items_no_models.
  - rewrite recognize_items_run; [done|].
    intros i [_ Hi]%elem_of_seq. apply Hacc. lia.
Qed.

(** A failing access to a test item is not caught. *)
Lemma recognize_items_raises models test_set idxs ps gs i :
  models <> [] -> i ∈ idxs -> get_item_Xlengths test_set i = None ->
  recognize_items models test_set idxs ps gs = Raised.
Proof.
  intros Hne Hin Hitem. revert ps gs.
  induction idxs as [|j idxs IH]; intros ps gs; [by apply elem_of_nil in Hin|].
  cbn [recognize_items].
  destruct (recognize_words models test_set j _ _) as [v|] eqn:Hw; [|done].
  apply elem_of_cons in Hin as [->|Hin]; [|by apply IH].
  rewrite recognize_words_raises in Hw; [done|done|].
  by destruct models.
Qed.

Lemma record_scores_lookup_other test_set i entries values (w : string) :
  w ∉ entries.*1 ->
  record_scores test_set i entries values !! w = values !! w.
Proof.
  revert values. induction entries as [|[k m] rest IH]; intros values Hw.
  { done. }
  unfold record_scores in *. cbn [fold_left fst snd].
  rewrite fmap_cons, not_elem_of_cons in Hw. destruct Hw as [Hne Hw].
  rewrite IH by done. cbn. by rewrite lookup_insert_ne.
Qed.

Lemma record_scores_lookup test_set i entries values (w : string) m :
  NoDup entries.*1 -> (w, m) ∈ entries ->
  record_scores test_set i entries values !! w =
  Some (item_score test_set i m).
Proof.
  revert values. induction entries as [|[k m'] rest IH]; intros values Hnd Hin.
  { by apply elem_of_nil in Hin. }
  rewrite fmap_cons, NoDup_cons in Hnd. destruct Hnd as [Hk Hnd].
  unfold record_scores in *. cbn [fold_left fst snd].
  apply elem_of_cons in Hin as [[= <- <-]|Hin].
  - fold (record_scores test_set i rest
            (<[w := item_score test_set i m]> values)).
    rewrite record_scores_lookup_other by done.
    by rewrite lookup_insert_eq.
  - by apply IH.
Qed.

Lemma record_scores_dom test_set i entries values :
  dom (record_scores test_set i entries values) =
  dom values ∪ list_to_set entries.*1.
Proof.
  revert values. induction entries as [|[k m] rest IH]; intros values.
  { cbn. by rewrite (right_id_L ∅ (∪)). }
  unfold record_scores in *. cbn [fold_left fst snd].
  rewrite IH, dom_insert_L, fmap_cons. cbn.
  by rewrite (comm_L (∪) {[k]}), <- (assoc_L (∪)).
Qed.

Lemma record_scores_lookup_inv test_set i entries values (w : string) s :
  record_scores test_set i entries values !! w = Some s ->
  values !! w = Some s \/
  exists m, (w, m) ∈ entries /\ s = item_score test_set i m.
Proof.
  revert values. induction entries as [|[k m] rest IH]; intros values Hs.
  { by left. }
  unfold record_scores in *. cbn [fold_left fst snd] in Hs.
  apply IH in Hs as [Hs|(m' & Hin & ->)].
  - destruct (decide (k = w)) as [->|Hne].
    + rewrite lookup_insert_eq in Hs. injection Hs as <-.
      right. exists m. split; [left|done].
    + rewrite lookup_insert_ne in Hs by done. by left.
  - right. exists m'. split; [by right|done].
Qed.

Lemma word_scores_labels models test_set i :
  word_scores test_set i (visited models) =
  map (fun e : string * float => (Some e.1, e.2))
      (label_scores models test_set i).
Proof. unfold word_scores, label_scores. by rewrite map_map. Qed.

(** The guess for an item: [None] when no score is above [-inf],
    otherwise the first of the labels with the highest score. *)
Lemma item_guess_spec models test_set i :
  (item_guess models test_set i = None /\
   forall e, e ∈ label_scores models test_set i ->
             PyFloat.gt e.2 neg_infinity = false) \/
  (exists w s,
     item_guess models test_set i = Some w /\
     (w, s) ∈ label_scores models test_set i /\
     PyFloat.gt s neg_infinity = true /\
     first_best (label_scores models test_set i) w).
Proof.
  unfold item_guess. rewrite word_scores_labels.
  set (scores := label_scores models test_set i).
  set (tag := fun e : string * float => (Some e.1, e.2)).
  pose (init := (neg_infinity, @None string)).
  destruct (track_origin PyFloat.gt init (map tag scores))
    as [[Heq Hall]|(l1 & t & v & l2 & Hobs & Heq & Hv & Hl1 & Hl2)].
  - left. fold init. rewrite Heq. split; [done|].
    intros e He. apply (Hall (tag e)). by apply list_elem_of_fmap_2.
  - right. fold init. rewrite Heq. cbn [snd].
    apply fmap_app_inv in Hobs as (k1 & k2' & -> & Hk2 & Hsc).
    symmetry in Hk2.
    apply fmap_cons_inv in Hk2 as ([w s] & k2 & [= -> ->] & -> & ->).
    exists w, s. split_and!; [done| |done|].
    + rewrite Hsc. apply elem_of_app. right. left.
    + exists k1, s, k2. split_and!; [done| |].
      * intros e He.
        pose proof (track_bound PyFloat.gt init (map tag scores) (tag e))
          as Hb.
        rewrite Heq in Hb. apply Hb. by apply list_elem_of_fmap_2.
      * intros e He. apply (Hl1 (tag e)). by apply list_elem_of_fmap_2.
Qed.

End RecognizerRuns.

(** ** Candidates and observations *)

Lemma of_int_minus_two : PyFloat.of_int (-2) = Some (-2)%float.
Proof. reflexivity. Qed.

Lemma of_int_one : PyFloat.of_int 1 = Some 1%float.
Proof. reflexivity. Qed.

Lemma elem_of_py_range (a b i : Z) : i ∈ py_range a b <-> a <= i < b.
Proof.
  unfold py_range. rewrite list_elem_of_fmap. split.
  - intros (k & -> & Hk%elem_of_seq). lia.
  - intros Hi. exists (Z.to_nat (i - a)). split; [lia|].
    apply elem_of_seq. lia.
Qed.

Lemma scored_elem (value : Z -> option float) (cands : list Z) i v :
  (i, v) ∈ scored value cands <-> i ∈ cands /\ value i = Some v.
Proof.
  unfold scored. rewrite list_elem_of_omap. split.
  - intros (j & Hj & Hv). destruct (value j) as [w|] eqn:Hw; [|done].
    by simplify_eq/=.
  - intros [Hi Hv]. exists i. by rewrite Hv.
Qed.

Section Observations.

Context {adapter : Adapter}.

Implicit Types (self : ModelSelector) (st : search) (i n : Z).

Lemma cv_observed_elem self cands i v :
  (i, v) ∈ cv_observed self cands <->
  i ∈ cands /\ v ∈ cv_candidate_scores self i.
Proof.
  unfold cv_observed. rewrite list_elem_of_In, in_flat_map. split.
  - intros (j & Hj%list_elem_of_In & Hin%list_elem_of_In).
    apply list_elem_of_fmap in Hin as (w & [= <- <-] & Hw). done.
  - intros [Hi Hv]. exists i. split; [by apply list_elem_of_In|].
    apply list_elem_of_In, list_elem_of_fmap. by exists v.
Qed.

(** The winner of a search is the default or one of the candidates. *)
Lemma track_winner_in_range (better : float -> float -> bool)
    `{!Beats better} (lo hi : Z) (v0 : float) (obs : list (Z * float)) :
  lo <= hi ->
  (forall i v, (i, v) ∈ obs -> lo <= i <= hi) ->
  lo <= (track better (v0, lo) obs).2 <= hi.
Proof.
  intros Hrange Hobs.
  destruct (track_origin better (v0, lo) obs)
    as [[-> _]|(l1 & t & v & l2 & Heq & -> & _)]; simpl; [lia|].
  apply (Hobs t v). rewrite Heq. apply elem_of_app. right. left.
Qed.

Lemma candidates_bounds self i :
  i ∈ candidates self ->
  min_n_components self <= i <= max_n_components self.
Proof. unfold candidates. rewrite elem_of_py_range. lia. Qed.

(** What a BIC or DIC search ends with: no candidate's value beats the
    tracked one, which is the initial one or the value of the winner. *)
Lemma scan_selection (better : float -> float -> bool) `{!Beats better}
    (value : Z -> option float) (cands : list Z) (v0 : float) (n0 : Z) :
  let r := track better (v0, n0) (scored value cands) in
  (forall j v, j ∈ cands -> value j = Some v -> better v r.1 = false) /\
  ((r = (v0, n0) /\
    forall j v, j ∈ cands -> value j = Some v -> better v v0 = false) \/
   (r.2 ∈ cands /\ value r.2 = Some r.1 /\ better r.1 v0 = true)).
Proof.
  intros r. split.
  - intros j v Hj Hv.
    apply (track_bound better (v0, n0) (scored value cands) (j, v)).
    by apply scored_elem.
  - destruct (track_origin better (v0, n0) (scored value cands))
      as [[Heq Hall]|(l1 & t & v & l2 & Hobs & Heq & Hv & _)].
    + left. split; [done|]. intros j v Hj Hv.
      apply (Hall (j, v)). by apply scored_elem.
    + right. subst r. rewrite Heq. cbn [fst snd].
      assert ((t, v) ∈ scored value cands) as [Ht Htv]%scored_elem.
      { rewrite Hobs. apply elem_of_app. right. left. }
      done.
Qed.

(** The inner loop of the DIC search sums the scores of the other
    words. *)
Lemma dic_word_score_sum self (m : model) items acc ss st :
  mapM (fun e : string * Xlengths => hmm_score m e.2.1 e.2.2)
       (filter (fun e : string * Xlengths => e.1 ≠ this_word self) items)
    = Some ss ->
  dic_word_score self m items acc st =
  (Done (fold_left PrimFloat.add ss acc), st).
Proof.
  revert acc ss.
  induction items as [|[key [x ls]] rest IH]; intros acc ss Hss.
  { injection Hss as <-. done. }
  cbn [dic_word_score].
  destruct (String.eqb_spec key (this_word self)) as [->|Hne].
  - rewrite filter_cons_False in Hss by (cbn; tauto). by apply IH.
  - rewrite filter_cons_True in Hss by done. cbn in Hss.
    unfold bind, raise_if_none.
    destruct (hmm_score m x ls) as [s|]; [|done]. cbn in Hss.
    destruct (mapM _ _) as [ss'|] eqn:Hss'; [|done].
    injection Hss as <-. cbn [fold_left]. by apply IH.
Qed.

(** The score the loop computes for a fold is the validation score. *)
Lemma cv_fold_value_validation self i fold :
  cv_fold_value self i fold = validation_score self i fold.
Proof.
  unfold cv_fold_value, result_of, cv_fold_score, validation_score, bind,
    raise_if_none.
  destruct fold as [train_idx text_idx]; cbn [fst snd].
  destruct (combine_sequences train_idx _) as [train|]; [|done].
  destruct (combine_sequences text_idx _) as [test|]; [|done].
  rewrite GaussianHMM_fit_run.
  destruct (hmm_fit _ _ _ _) as [m|]; [|done]. cbn.
  by destruct (hmm_score m _ _).
Qed.

Lemma cv_scored_seen self i folds s :
  s ∈ cv_scored self i folds <-> fold_score_seen self i folds s.
Proof.
  unfold fold_score_seen. induction folds as [|fold folds IH].
  { split; [by intros ?%elem_of_nil|]. by intros ([] & ? & ? & ? & _). }
  cbn [cv_scored]. rewrite cv_fold_value_validation.
  destruct (validation_score self i fold) as [v|] eqn:Hv.
  - rewrite elem_of_cons, IH. split.
    + intros [->|(before & f & after & -> & Hbefore & Hf)].
      * exists [], fold, folds. by split_and!.
      * exists (fold :: before), f, after. split_and!; [done| |done].
        apply Forall_cons_2; [by rewrite Hv|done].
    + intros (before & f & after & Heq & Hbefore & Hf).
      destruct before as [|f0 before]; cbn in Heq.
      * injection Heq as <- <-. left. congruence.
      * injection Heq as <- ->. right. exists before, f, after.
        split_and!; [done| |done]. by apply Forall_cons_1 in Hbefore as [_ ?].
  - split; [by intros ?%elem_of_nil|].
    intros (before & f & after & Heq & Hbefore & Hf).
    destruct before as [|f0 before]; cbn in Heq.
    + injection Heq as <- <-. congruence.
    + injection Heq as <- ->. apply Forall_cons_1 in Hbefore as [[? H] _].
      congruence.
Qed.

Lemma cv_observed_seen self cands folds i s :
  kfold_split (random_state self) (sequences self) = Some folds ->
  (i, s) ∈ cv_observed self cands <->
  i ∈ cands /\ fold_score_seen self i folds s.
Proof.
  intros Hsplit. rewrite cv_observed_elem. unfold cv_candidate_scores.
  by rewrite Hsplit, cv_scored_seen.
Qed.

End Observations.

(** ** The claims *)

Section Claims.

Context {adapter : Adapter}.

Implicit Types (self : ModelSelector) (st : search) (i n : Z).

(** C10: [SelectorConstant.select] requests exactly one fit, of
    [n_constant] states on the word's full data, and returns its result
    (the model, or [None] when the fit raises); changing the search range
    [min_n_components, max_n_components] changes nothing. *)
Theorem SelectorConstant_select_n_constant self (lo hi : Z) st :
  SelectorConstant_select self st =
    (Done (hmm_fit (n_constant self) (random_state self)
                   (X self) (lengths self)),
     Search (max_score st) (max_components st)
            (fit_log st ++ [FitCall (n_constant self) (random_state self)
                                    (X self) (lengths self)])) /\
  SelectorConstant_select (with_range self lo hi) st =
    SelectorConstant_select self st.
Proof.
  split.
  - apply SelectorConstant_select_run.
  - by rewrite !SelectorConstant_select_run.
Qed.

(** C8: when [min_n_components <= max_n_components], each of
    [SelectorBIC.select], [SelectorDIC.select] and [SelectorCV.select]
    returns the result of a fit whose state count [n] lies in
    [min_n_components, max_n_components]; this fit is the last one
    requested.  [SelectorCV.select] returns once its [KFold] splitter is
    built. *)
Theorem selected_state_count_in_range self st
    (Hrange : min_n_components self <= max_n_components self) :
  let in_range := fun select : ModelSelector -> Py (option model) =>
    exists n st',
      min_n_components self <= n <= max_n_components self /\
      select self st = (Done (full_fit self n), st') /\
      max_components st' = n /\
      last (fit_log st') = Some (fit_of self n) in
  Forall in_range [SelectorBIC_select; SelectorDIC_select] /\
  (splitter_built self -> in_range SelectorCV_select).
Proof.
  assert (forall (r : float * Z) calls,
            last (fit_log (Search r.1 r.2
                    (fit_log st ++ calls ++ [fit_of self r.2]))) =
            Some (fit_of self r.2)) as Hlast.
  { intros r calls. cbn [fit_log]. by rewrite !app_assoc, last_snoc. }
  cbn zeta. split.
  - repeat apply Forall_cons_2; [| |apply Forall_nil_2].
    + eexists _, _.
      split; [|split; [apply SelectorBIC_select_run|split; [done|apply Hlast]]].
      apply track_winner_in_range; [apply _|done|].
      intros i v [Hi _]%scored_elem. by apply candidates_bounds.
    + eexists _, _.
      split; [|split; [apply SelectorDIC_select_run|split; [done|apply Hlast]]].
      apply track_winner_in_range; [apply _|done|].
      intros i v [Hi _]%scored_elem. by apply candidates_bounds.
  - intros Hbuilt. eexists _, _.
    split;
      [|split; [apply SelectorCV_select_run; by right
               |split; [done|apply Hlast]]].
    apply track_winner_in_range; [apply _|done|].
    intros i v [Hi _]%cv_observed_elem. by apply candidates_bounds.
Qed.

(** C1: when the splitter is built and gives [folds], and the loop of
    [SelectorCV.select] gets to see a validation score above [-inf], the
    score it ends with is a per-fold validation score of the winning
    candidate [best]: the score, under the model fitted with [best]
    states on the training sequences of a fold, of the validation
    sequences of that fold.  No validation score seen for any fold of any
    candidate is higher, and every one seen earlier is strictly lower (or
    is not a number).  The model returned is the fit of [best] states on
    the full data. *)
Theorem SelectorCV_tracks_highest_fold_score self st
    (folds : list (list nat * list nat)) (i0 : Z) (s0 : float)
    (Hbuilt : splitter_built self)
    (Hsplit : kfold_split (random_state self) (sequences self) = Some folds)
    (Hi0 : i0 ∈ candidates self)
    (Hseen : fold_score_seen self i0 folds s0)
    (Hnum : PyFloat.gt s0 neg_infinity = true) :
  exists (best : Z) (top : float) (st' : search)
         (fold : list nat * list nat) (train test : Xlengths) (m : model)
         l1 l2,
    SelectorCV_select self st = (Done (full_fit self best), st') /\
    max_score st' = top /\ max_components st' = best /\
    best ∈ candidates self /\ fold_score_seen self best folds top /\
    fold ∈ folds /\
    combine_sequences fold.1 (sequences self) = Some train /\
    combine_sequences fold.2 (sequences self) = Some test /\
    hmm_fit best (random_state self) train.1 train.2 = Some m /\
    hmm_score m test.1 test.2 = Some top /\
    (forall i s, i ∈ candidates self -> fold_score_seen self i folds s ->
                 PyFloat.gt s top = false) /\
    cv_observed self (candidates self) = l1 ++ (best, top) :: l2 /\
    (forall i s, (i, s) ∈ l1 ->
       i ∈ candidates self /\ fold_score_seen self i folds s /\
       (PyFloat.gt top s = true \/ is_nan s = true)).
Proof.
  pose proof (SelectorCV_select_run self st (or_intror Hbuilt)) as Hrun.
  cbn zeta in Hrun.
  set (obs := cv_observed self (candidates self)) in *.
  pose (init := (neg_infinity, min_n_components self)).
  fold init in Hrun.
  assert ((i0, s0) ∈ obs) as Hin0 by by apply (cv_observed_seen _ _ folds).
  destruct (track_origin PyFloat.gt init obs)
    as [[_ Hall]|(l1 & t & v & l2 & Hobs & Heq & _ & Hl1 & _)].
  { specialize (Hall _ Hin0). unfold init in Hall. cbn [fst snd] in Hall.
    congruence. }
  rewrite Heq in Hrun. cbn [fst snd] in Hrun.
  assert ((t, v) ∈ obs) as [Ht Htop]%(cv_observed_seen _ _ folds _ _ Hsplit).
  { rewrite Hobs. apply elem_of_app. right. left. }
  pose proof Htop as (before & fold & after & Hfolds & _ & Hval).
  unfold validation_score in Hval.
  destruct (combine_sequences fold.1 _) as [train|] eqn:Htrain; [|done].
  destruct (combine_sequences fold.2 _) as [test|] eqn:Htest; [|done].
  destruct (hmm_fit t _ _ _) as [m|] eqn:Hfit; [|done].
  eexists t, v, _, fold, train, test, m, l1, l2.
  split; [exact Hrun|].
  split_and!; try done.
  - rewrite Hfolds. apply elem_of_app. right. left.
  - intros i s Hi Hs.
    assert ((i, s) ∈ obs) as Hin by by apply (cv_observed_seen _ _ folds).
    pose proof (track_bound PyFloat.gt init obs (i, s) Hin) as Hb.
    by rewrite Heq in Hb.
  - intros i s Hin.
    assert ((i, s) ∈ obs) as [Hi Hs]%(cv_observed_seen _ _ folds _ _ Hsplit).
    { rewrite Hobs. apply elem_of_app. by left. }
    split_and!; [done|done|]. apply (Hl1 (i, s) Hin).
Qed.

(** C3: for a candidate [i] whose fit gives [m] and whose score on the
    word's own data is [log_l], [SelectorBIC.select] computes the BIC
    [-2 * log_l + p * ln N] with [p = i*i + 2*f*i - 1], [f] the length of
    the first row of [X] and [N] the number of rows of [X]; the iteration
    records [(bic, i)] exactly when [bic] is strictly below the current
    minimum; and at the end no candidate's BIC is below the tracked
    value, which is the initial [+inf] (with [min_n_components]) or the
    BIC of the recorded candidate. *)
Theorem SelectorBIC_score_and_minimum self st i (m : model)
    (log_l : float) (row : list float) (rows : matrix) (ln_n pf : float)
    (Hfit : hmm_fit i (random_state self) (X self) (lengths self) = Some m)
    (Hscore : hmm_score m (X self) (lengths self) = Some log_l)
    (HX : X self = row :: rows)
    (Hlog : math_log (Z.of_nat (length (X self))) = Some ln_n)
    (Hp : PyFloat.of_int (i * i + 2 * Z.of_nat (length row) * i - 1)
          = Some pf) :
  let bic := (-2 * log_l + pf * ln_n)%float in
  bic_of self i st =
    (Done bic,
     Search (max_score st) (max_components st)
            (fit_log st ++ [fit_of self i])) /\
  bic_iteration self i st =
    (Done tt,
     if (bic <? max_score st)%float
     then Search bic i (fit_log st ++ [fit_of self i])
     else Search (max_score st) (max_components st)
                 (fit_log st ++ [fit_of self i])) /\
  exists st',
    SelectorBIC_select self st =
      (Done (full_fit self (max_components st')), st') /\
    (forall j v, j ∈ candidates self -> bic_value self j = Some v ->
                 (v <? max_score st')%float = false) /\
    ((max_score st' = infinity /\
      max_components st' = min_n_components self) \/
     (max_components st' ∈ candidates self /\
      bic_value self (max_components st') = Some (max_score st'))).
Proof.
  intros bic.
  assert (bic_value self i = Some bic) as Hbic.
  { assert (head (X self) = Some row) as Hhead by (by rewrite HX).
    unfold bic_value, result_of, bic_of, bind, int_mul_float, bind,
      raise_if_none, ret.
    rewrite GaussianHMM_fit_run, Hfit. cbn -[PyFloat.of_int Z.pow].
    rewrite Hscore. cbn -[PyFloat.of_int Z.pow].
    rewrite Hhead. cbn -[PyFloat.of_int Z.pow].
    rewrite of_int_minus_two. cbn -[PyFloat.of_int Z.pow].
    rewrite Hlog. cbn -[PyFloat.of_int Z.pow].
    rewrite Z.pow_2_r, Hp. done. }
  split; [by rewrite bic_of_run, Hbic|]. split.
  - rewrite bic_iteration_run. unfold scan_step. rewrite Hbic.
    unfold PyFloat.lt, log_fit. by destruct (bic <? max_score st)%float.
  - pose proof (SelectorBIC_select_run self st) as Hrun. cbn zeta in Hrun.
    eexists (Search _ _ _). split; [exact Hrun|].
    cbn [max_score max_components].
    destruct (scan_selection PyFloat.lt (bic_value self) (candidates self)
                infinity (min_n_components self)) as [Hmin Hwho].
    split; [exact Hmin|].
    destruct Hwho as [[-> _]|(Hin & Hval & _)]; [by left|by right].
Qed.

(** C4: for a candidate [i] whose fit gives [m], whose score on the
    word's own data is [own] and whose scores on the data of the other
    words of the dictionary are [others], [SelectorDIC.select] computes the
    DIC [own - (1 / (M - 1)) * sum others] with [M] the number of words of
    the dictionary; the iteration records [(dic, i)] exactly when [dic]
    is strictly above the current maximum; and at the end no candidate's
    DIC is above the tracked value, which is the initial [-inf] (with
    [min_n_components]) or the DIC of the recorded candidate. *)
Theorem SelectorDIC_score_and_maximum self st i (m : model)
    (own : float) (others : list float) (fm : float)
    (Hfit : hmm_fit i (random_state self) (X self) (lengths self) = Some m)
    (Hown : hmm_score m (X self) (lengths self) = Some own)
    (Hothers : other_scores self m = Some others)
    (HM : Z.of_nat (length (hwords self)) - 1 <> 0)
    (Hfm : PyFloat.of_int (Z.of_nat (length (hwords self)) - 1) = Some fm) :
  let dic := (own - 1 / fm * float_sum others)%float in
  dic_of self i st =
    (Done dic,
     Search (max_score st) (max_components st)
            (fit_log st ++ [fit_of self i])) /\
  dic_iteration self i st =
    (Done tt,
     if (max_score st <? dic)%float
     then Search dic i (fit_log st ++ [fit_of self i])
     else Search (max_score st) (max_components st)
                 (fit_log st ++ [fit_of self i])) /\
  exists st',
    SelectorDIC_select self st =
      (Done (full_fit self (max_components st')), st') /\
    (forall j v, j ∈ candidates self -> dic_value self j = Some v ->
                 (max_score st' <? v)%float = false) /\
    ((max_score st' = neg_infinity /\
      max_components st' = min_n_components self) \/
     (max_components st' ∈ candidates self /\
      dic_value self (max_components st') = Some (max_score st'))).
Proof.
  intros dic.
  assert (dic_value self i = Some dic) as Hdic.
  { unfold dic_value, result_of, dic_of, bind, int_truediv, bind,
      raise_if_none, ret.
    rewrite GaussianHMM_fit_run, Hfit. cbn -[PyFloat.of_int].
    rewrite Hown. cbn -[PyFloat.of_int].
    rewrite (dic_word_score_sum self m _ _ others) by exact Hothers.
    apply Z.eqb_neq in HM. rewrite HM, of_int_one. cbn -[PyFloat.of_int].
    rewrite Hfm. done. }
  split; [by rewrite dic_of_run, Hdic|]. split.
  - rewrite dic_iteration_run. unfold scan_step. rewrite Hdic.
    unfold PyFloat.gt, log_fit. by destruct (max_score st <? dic)%float.
  - pose proof (SelectorDIC_select_run self st) as Hrun. cbn zeta in Hrun.
    eexists (Search _ _ _). split; [exact Hrun|].
    cbn [max_score max_components].
    destruct (scan_selection PyFloat.gt (dic_value self) (candidates self)
                neg_infinity (min_n_components self)) as [Hmax Hwho].
    split; [exact Hmax|].
    destruct Hwho as [[-> _]|(Hin & Hval & _)]; [by left|by right].
Qed.

Lemma fit_or_score_raises_no_value self i :
  fit_or_score_raises self i ->
  bic_value self i = None /\ dic_value self i = None.
Proof.
  unfold fit_or_score_raises, full_fit, bic_value, dic_value, result_of,
    bic_of, dic_of, bind, raise_if_none.
  rewrite !GaussianHMM_fit_run.
  destruct (hmm_fit _ _ _ _) as [m|]; cbn; [|done].
  by intros ->.
Qed.

(** C5, as amended: in the BIC and DIC searches a candidate whose fit or
    score raises (more generally, one for which no value is computed)
    leaves the comparison untouched; in the cross-validation search a
    raise ends the folds of the candidate, which leaves the comparison
    untouched when none of its folds was scored, and otherwise keeps
    what the folds scored before the raise recorded; when no candidate
    yields a value (no fold score for cross-validation) the winner is
    [min_n_components]; and each selector returns the result of one more
    fit, of the winner on the full data, requested after all the fits of
    the search.  What is said of the cross-validation search holds once
    its [KFold] splitter is built. *)
Theorem failed_candidates_default_and_fresh_fit self st i :
  (fit_or_score_raises self i ->
   bic_value self i = None /\ dic_value self i = None) /\
  (bic_value self i = None -> skipped (bic_iteration self i) st) /\
  (dic_value self i = None -> skipped (dic_iteration self i) st) /\
  (splitter_built self -> cv_candidate_scores self i = [] ->
   skipped (cv_iteration self i) st) /\
  (splitter_built self ->
   let st' := (cv_iteration self i st).2 in
   (max_score st', max_components st') =
   track PyFloat.gt (max_score st, max_components st)
         (map (pair i) (cv_candidate_scores self i))) /\
  ((forall j, j ∈ candidates self -> bic_value self j = None) ->
   max_components (SelectorBIC_select self st).2 = min_n_components self) /\
  ((forall j, j ∈ candidates self -> dic_value self j = None) ->
   max_components (SelectorDIC_select self st).2 = min_n_components self) /\
  (splitter_built self ->
   (forall j, j ∈ candidates self -> cv_candidate_scores self j = []) ->
   max_components (SelectorCV_select self st).2 = min_n_components self) /\
  let fresh_fit := fun select : ModelSelector -> Py (option model) =>
    exists n calls st',
      select self st = (Done (full_fit self n), st') /\
      max_components st' = n /\
      fit_log st' = fit_log st ++ calls ++ [fit_of self n] in
  Forall fresh_fit [SelectorBIC_select; SelectorDIC_select] /\
  (splitter_built self -> fresh_fit SelectorCV_select).
Proof.
  split_and!.
  - apply fit_or_score_raises_no_value.
  - intros Hv. unfold skipped. rewrite bic_iteration_run.
    unfold scan_step. by rewrite Hv.
  - intros Hv. unfold skipped. rewrite dic_iteration_run.
    unfold scan_step. by rewrite Hv.
  - intros Hbuilt Hv. unfold skipped. rewrite cv_iteration_run by done.
    by rewrite Hv.
  - intros Hbuilt. rewrite cv_iteration_run by done. cbn.
    by destruct (track _ _ _).
  - intros Hall. rewrite SelectorBIC_select_run. cbn.
    assert (scored (bic_value self) (candidates self) = []) as ->; [|done].
    apply elem_of_nil_inv. intros [j v] [Hj Hv]%scored_elem.
    by rewrite Hall in Hv.
  - intros Hall. rewrite SelectorDIC_select_run. cbn.
    assert (scored (dic_value self) (candidates self) = []) as ->; [|done].
    apply elem_of_nil_inv. intros [j v] [Hj Hv]%scored_elem.
    by rewrite Hall in Hv.
  - intros Hbuilt Hall. rewrite SelectorCV_select_run by by right. cbn.
    assert (cv_observed self (candidates self) = []) as ->; [|done].
    apply elem_of_nil_inv. intros [j v] [Hj Hv]%cv_observed_elem.
    rewrite Hall in Hv by done. by apply elem_of_nil in Hv.
  - cbn zeta. split.
    + repeat apply Forall_cons_2; [| |apply Forall_nil_2].
      * eexists _, _, _. split; [apply SelectorBIC_select_run|done].
      * eexists _, _, _. split; [apply SelectorDIC_select_run|done].
    + intros Hbuilt. eexists _, _, _.
      split; [apply SelectorCV_select_run; by right|done].
Qed.

(** C2, as amended: [select] of [SelectorConstant], [SelectorBIC] and
    [SelectorDIC] always returns (a model or [None]), whatever the fits
    and the scores do; so does [select] of [SelectorCV], whatever the
    fold split, the sequence combination, the fits and the scores do,
    once its [KFold] splitter is built (or when the range is empty, so
    that none is built); [recognize] returns whenever every test item can
    be fetched (or the model collection is empty), whatever the scores
    do; a test item whose access raises makes [recognize] raise. *)
Theorem raises_only_on_item_access self st
    (models : list (string * option model)) (test_set : SinglesData) :
  let returns := fun select : ModelSelector -> Py (option model) =>
    exists r st', select self st = (Done r, st') in
  Forall returns
    [SelectorConstant_select; SelectorBIC_select; SelectorDIC_select] /\
  (candidates self = [] \/ splitter_built self ->
   returns SelectorCV_select) /\
  (models = [] \/ items_accessible test_set ->
   exists ps gs, recognize models test_set = Done (ps, gs)) /\
  (forall i : nat,
     models <> [] -> (i < num_items test_set)%nat ->
     get_item_Xlengths test_set i = None ->
     recognize models test_set = Raised).
Proof.
  cbn zeta. split_and!.
  - repeat apply Forall_cons_2; [| | |apply Forall_nil_2].
    + eexists _, _. apply SelectorConstant_select_run.
    + eexists _, _. apply SelectorBIC_select_run.
    + eexists _, _. apply SelectorDIC_select_run.
  - intros Hbuilt. eexists _, _. by apply SelectorCV_select_run.
  - intros H. eexists _, _. by apply recognize_run.
  - intros i Hne Hi Hitem. unfold recognize.
    apply (recognize_items_raises _ _ _ _ _ i); [done| |done].
    apply elem_of_seq. lia.
Qed.

Lemma label_scores_item models test_set (i : nat) x ls :
  NoDup models.*1 ->
  get_item_Xlengths test_set i = Some (x, ls) ->
  label_scores models test_set i =
  map (fun e : string * option model => (e.1, score_or_neg_inf e.2 x ls))
      models.
Proof.
  intros Hnd Hitem. unfold label_scores, item_score.
  by rewrite visited_dict, Hitem.
Qed.

Lemma recognize_lookup models test_set (i : nat) :
  items_accessible test_set -> (i < num_items test_set)%nat ->
  exists ps gs,
    recognize models test_set = Done (ps, gs) /\
    length ps = num_items test_set /\ length gs = num_items test_set /\
    ps !! i = Some (item_probabilities models test_set i) /\
    gs !! i = Some (item_guess models test_set i).
Proof.
  intros Hacc Hi. eexists _, _. split; [apply recognize_run; by right|].
  rewrite !length_map, !length_seq, !list_lookup_fmap.
  by rewrite lookup_seq_lt.
Qed.

(** When [recognize] returns, no access to a test item raised. *)
Lemma recognize_Done_inv models test_set ps gs :
  recognize models test_set = Done (ps, gs) ->
  models = [] \/ items_accessible test_set.
Proof.
  intros Hrun. destruct models as [|e models]; [by left|right].
  intros i Hi. destruct (get_item_Xlengths test_set i) eqn:Hitem; [done|].
  unfold recognize in Hrun.
  rewrite (recognize_items_raises _ _ _ _ _ i) in Hrun; [done|done| |done].
  apply elem_of_seq. lia.
Qed.

(** C6, as amended: for a test item [i] that can be fetched, with data
    [(x, lengths)], the pass of [recognize] over the item records for each
    label of the model collection the score of the item under the label's
    model, and [-inf] when scoring raises; its guess is the first, in the
    iteration order of the collection, of the labels with the highest
    score when some score is above [-inf], and [None] when no score is.
    Whenever [recognize] returns, which it does when every test item can
    be fetched, these are the entries at index [i] of its two lists. *)
Theorem recognize_records_scores_and_guess
    (models : list (string * option model)) (test_set : SinglesData)
    (i : nat) (x : matrix) (ls : list Z)
    (Hdict : NoDup models.*1)
    (Hi : (i < num_items test_set)%nat)
    (Hitem : get_item_Xlengths test_set i = Some (x, ls)) :
  let scores :=
    map (fun e : string * option model => (e.1, score_or_neg_inf e.2 x ls))
        models in
  exists p g,
    recognize_words models test_set i models.*1
                    (ItemVars neg_infinity None ∅)
      = Done (ItemVars (max_l_of scores) g p) /\
    (forall w m v, (w, Some m) ∈ models -> hmm_score m x ls = Some v ->
                   p !! w = Some v) /\
    (forall w m, (w, m) ∈ models -> score_fails m x ls ->
                 p !! w = Some neg_infinity) /\
    ((g = None /\
      forall e, e ∈ scores -> PyFloat.gt e.2 neg_infinity = false) \/
     (exists w s, g = Some w /\ (w, s) ∈ scores /\
                  PyFloat.gt s neg_infinity = true /\
                  first_best scores w)) /\
    (forall ps gs, recognize models test_set = Done (ps, gs) ->
                   ps !! i = Some p /\ gs !! i = Some g) /\
    (items_accessible test_set ->
     exists ps gs, recognize models test_set = Done (ps, gs)).
Proof.
  intros scores.
  exists (item_probabilities models test_set i),
    (item_guess models test_set i).
  split_and!.
  - rewrite recognize_words_run by (done || by eexists). cbn zeta.
    unfold max_l_of, item_guess, item_probabilities, visited. subst scores.
    rewrite <- (label_scores_item models test_set i x ls Hdict Hitem).
    by rewrite <- word_scores_labels.
  - intros w m v Hin Hv. unfold item_probabilities.
    rewrite visited_dict by done.
    rewrite (record_scores_lookup _ _ _ _ _ (Some m)) by done.
    unfold item_score. rewrite Hitem. cbn. by rewrite Hv.
  - intros w m Hin Hfail. unfold item_probabilities.
    rewrite visited_dict by done.
    rewrite (record_scores_lookup _ _ _ _ _ m) by done.
    unfold item_score. rewrite Hitem.
    destruct m as [m|]; cbn in *; [by rewrite Hfail|done].
  - subst scores.
    rewrite <- (label_scores_item models test_set i x ls Hdict Hitem).
    apply item_guess_spec.
  - intros ps gs Hrun. pose proof (recognize_Done_inv _ _ _ _ Hrun) as Hret.
    rewrite recognize_run in Hrun by done. injection Hrun as <- <-.
    rewrite !list_lookup_fmap. by rewrite lookup_seq_lt.
  - intros Hacc. eexists _, _. apply recognize_run. by right.
Qed.

(** C7: when scoring raises for every label of the model collection on
    test item [i], [recognize] returns [None] as the guess for [i], and
    every entry recorded for [i] is [-inf]. *)
Theorem recognize_guess_none_when_all_scores_fail
    (models : list (string * option model)) (test_set : SinglesData)
    (i : nat) (x : matrix) (ls : list Z)
    (Hacc : items_accessible test_set)
    (Hi : (i < num_items test_set)%nat)
    (Hitem : get_item_Xlengths test_set i = Some (x, ls))
    (Hfail : forall w m, (w, m) ∈ models -> score_fails m x ls) :
  exists ps gs p,
    recognize models test_set = Done (ps, gs) /\
    gs !! i = Some None /\ ps !! i = Some p /\
    forall w s, p !! w = Some s -> s = neg_infinity.
Proof.
  assert (forall w m, (w, m) ∈ models ->
            item_score test_set i m = neg_infinity) as Hninf.
  { intros w m Hin. specialize (Hfail w m Hin). unfold item_score.
    rewrite Hitem. destruct m as [m|]; cbn in *; by rewrite ?Hfail. }
  destruct (recognize_lookup models test_set i Hacc Hi)
    as (ps & gs & Hrun & _ & _ & Hp & Hg).
  exists ps, gs, (item_probabilities models test_set i).
  split_and!; [done| |done|].
  - rewrite Hg. f_equal.
    destruct (item_guess_spec models test_set i)
      as [[-> _]|(w & s & _ & Hin & Hs & _)]; [done|].
    apply list_elem_of_fmap in Hin as ([w' m] & [= -> ->] & Hin%visited_elem).
    cbn in Hs. by rewrite (Hninf _ _ Hin) in Hs.
  - intros w s [Hs|(m & Hin%visited_elem & ->)]%record_scores_lookup_inv.
    + by rewrite lookup_empty in Hs.
    + by apply (Hninf w).
Qed.

(** C9, as amended: when every test item can be fetched (or there is no model, so
    that no item is fetched), [recognize] returns two lists of [num_items]
    entries each; entry [i] of either list is the one computed for test
    item [i], and the dictionary at [i] has the labels of the model
    collection as its keys, one entry for each. *)
Theorem recognize_alignment
    (models : list (string * option model)) (test_set : SinglesData)
    (Hdict : NoDup models.*1)
    (Hacc : models = [] \/ items_accessible test_set) :
  exists ps gs,
    recognize models test_set = Done (ps, gs) /\
    length gs = num_items test_set /\
    length ps = num_items test_set /\
    forall i : nat, (i < num_items test_set)%nat ->
      exists p,
        ps !! i = Some p /\
        p = item_probabilities models test_set i /\
        gs !! i = Some (item_guess models test_set i) /\
        dom p = list_to_set models.*1 /\
        size p = length models.
Proof.
  eexists _, _. split; [by apply recognize_run|].
  rewrite !length_map, !length_seq. split_and!; [done|done|].
  intros i Hi. eexists. rewrite !list_lookup_fmap, lookup_seq_lt by done.
  split_and!; [done|done|done| |].
  - unfold item_probabilities.
    by rewrite record_scores_dom, dom_empty_L, (left_id_L ∅ (∪)), visited_keys.
  - rewrite <- size_dom. unfold item_probabilities.
    rewrite record_scores_dom, dom_empty_L, (left_id_L ∅ (∪)), visited_keys.
    rewrite size_list_to_set by done. by rewrite length_fmap.
Qed.

End Claims.

(** ** Further properties of the selectors *)

Section SelectorProperties.

Context {adapter : Adapter}.

Implicit Types (self : ModelSelector) (st : search) (i n : Z).

Lemma dict_get_None {V : Type} (d : list (string * V)) (k : string) :
  dict_get d k = None <-> k ∉ d.*1.
Proof.
  split.
  - intros Hnone [x Hx]%dict_get_key. congruence.
  - intros Hk. destruct (dict_get d k) as [x|] eqn:Hx; [|done].
    destruct Hk. apply list_elem_of_fmap. exists (k, x).
    split; [done|]. by apply dict_get_elem.
Qed.

(** [ModelSelector.__init__] raises exactly when the word is missing from
    one of the two dictionaries; otherwise the selector holds, for the
    word, the sequences and the pair [(X, lengths)] found under it, and
    the two dictionaries and the configuration as they were given. *)
Theorem ModelSelector_init_missing_word
    (all_word_sequences : list (string * list matrix))
    (all_word_Xlengths : list (string * Xlengths)) (word : string)
    (n_const min_n max_n seed : Z) (verb : bool) :
  (ModelSelector_init all_word_sequences all_word_Xlengths word
                      n_const min_n max_n seed verb = None <->
   word ∉ all_word_sequences.*1 \/ word ∉ all_word_Xlengths.*1) /\
  forall self,
    ModelSelector_init all_word_sequences all_word_Xlengths word
                       n_const min_n max_n seed verb = Some self ->
    this_word self = word /\
    words self = all_word_sequences /\ hwords self = all_word_Xlengths /\
    dict_get (words self) word = Some (sequences self) /\
    dict_get (hwords self) word = Some (X self, lengths self) /\
    (word, (X self, lengths self)) ∈ hwords self /\
    (n_constant self, min_n_components self, max_n_components self,
     random_state self, verbose self) = (n_const, min_n, max_n, seed, verb).
Proof.
  unfold ModelSelector_init. rewrite <- !dict_get_None.
  destruct (dict_get all_word_sequences word) as [seqs|] eqn:Hs;
    [|split; [split; [by left|done]|done]].
  destruct (dict_get all_word_Xlengths word) as [[x ls]|] eqn:Hx;
    [|split; [split; [by right|done]|done]].
  split.
  - split; [done|]. by intros [?|?].
  - intros self [= <-]. cbn. split_and!; try done. by apply dict_get_elem.
Qed.

Lemma candidates_empty self :
  max_n_components self < min_n_components self -> candidates self = [].
Proof.
  intros H. unfold candidates, py_range.
  by replace (Z.to_nat _) with 0%nat by lia.
Qed.

(** With [max_n_components < min_n_components] the range of candidates
    is empty: the three searching selectors request one fit only, of
    [min_n_components] states on the full data, and return its result. *)
Theorem empty_range_fits_min_n_components self st
    (Hempty : max_n_components self < min_n_components self) :
  let lo := min_n_components self in
  SelectorBIC_select self st =
    (Done (full_fit self lo),
     Search infinity lo (fit_log st ++ [fit_of self lo])) /\
  SelectorDIC_select self st =
    (Done (full_fit self lo),
     Search neg_infinity lo (fit_log st ++ [fit_of self lo])) /\
  SelectorCV_select self st =
    (Done (full_fit self lo),
     Search neg_infinity lo (fit_log st ++ [fit_of self lo])).
Proof.
  intros lo. pose proof (candidates_empty self Hempty) as Hnil.
  rewrite SelectorBIC_select_run, SelectorDIC_select_run,
    SelectorCV_select_run by by left.
  by rewrite Hnil.
Qed.

Lemma scored_no_value (value : Z -> option float) (cands : list Z) :
  (forall j, j ∈ cands -> value j = None) -> scored value cands = [].
Proof.
  intros Hall. apply elem_of_nil_inv. intros [j v] [Hj Hv]%scored_elem.
  by rewrite Hall in Hv.
Qed.

Lemma dic_value_single_word self i :
  length (hwords self) = 1%nat -> dic_value self i = None.
Proof.
  intros Hone.
  unfold dic_value, result_of, dic_of, bind, int_truediv, raise_if_none.
  rewrite GaussianHMM_fit_run, Hone.
  destruct (hmm_fit _ _ _ _) as [m|]; cbn -[PyFloat.of_int]; [|done].
  destruct (hmm_score m _ _) as [own|]; cbn -[PyFloat.of_int]; [|done].
  destruct (dic_word_score_run self m (hwords self) 0%float) as [o Ho].
  rewrite Ho. by destruct o.
Qed.

(** With one word only in the dictionary, [1 / (len(self.hwords) - 1)]
    divides by zero for every candidate: [SelectorDIC.select] records no
    candidate and returns the fit of [min_n_components] states, after one
    fit per candidate of the range. *)
Theorem SelectorDIC_single_word self st
    (Hone : length (hwords self) = 1%nat) :
  let lo := min_n_components self in
  SelectorDIC_select self st =
    (Done (full_fit self lo),
     Search neg_infinity lo
       (fit_log st ++ map (fit_of self) (candidates self)
          ++ [fit_of self lo])).
Proof.
  intros lo. rewrite SelectorDIC_select_run.
  rewrite scored_no_value; [done|].
  intros j _. by apply dic_value_single_word.
Qed.

Lemma bic_value_no_frames self i : X self = [] -> bic_value self i = None.
Proof.
  intros HX.
  unfold bic_value, result_of, bic_of, bind, raise_if_none.
  rewrite GaussianHMM_fit_run, HX.
  destruct (hmm_fit _ _ _ _) as [m|]; cbn -[PyFloat.of_int]; [|done].
  by destruct (hmm_score m _ _).
Qed.

(** With no frame in [X], [len(self.X[0])] raises for every candidate
    that was fitted and scored: [SelectorBIC.select] records no candidate
    and returns the fit of [min_n_components] states. *)
Theorem SelectorBIC_no_frames self st (HX : X self = []) :
  let lo := min_n_components self in
  SelectorBIC_select self st =
    (Done (full_fit self lo),
     Search infinity lo
       (fit_log st ++ map (fit_of self) (candidates self)
          ++ [fit_of self lo])).
Proof.
  intros lo. rewrite SelectorBIC_select_run.
  rewrite scored_no_value; [done|].
  intros j _. by apply bic_value_no_frames.
Qed.

(** When the [split] of the splitter that was built raises (fewer
    sequences than folds, for one), [SelectorCV.select] requests no fit
    during the search, whatever the range, and returns the fit of
    [min_n_components] states on the full data. *)
Theorem SelectorCV_split_raises self st
    (Hbuilt : splitter_built self)
    (Hsplit : kfold_split (random_state self) (sequences self) = None) :
  let lo := min_n_components self in
  SelectorCV_select self st =
    (Done (full_fit self lo),
     Search neg_infinity lo (fit_log st ++ [fit_of self lo])).
Proof.
  intros lo. rewrite SelectorCV_select_run by by right.
  assert (forall cands, cv_observed self cands = []) as Hobs.
  { intros cands. unfold cv_observed.
    induction cands as [|j cands IH]; [done|].
    cbn [flat_map]. rewrite IH. unfold cv_candidate_scores.
    by rewrite Hsplit. }
  assert (forall cands, flat_map (cv_candidate_calls self) cands = [])
    as Hcalls.
  { intros cands. induction cands as [|j cands IH]; [done|].
    cbn [flat_map]. rewrite IH. unfold cv_candidate_calls.
    by rewrite Hsplit. }
  by rewrite Hobs, Hcalls.
Qed.

Lemma omap_split {A B : Type} (f : A -> option B) (l : list A) l1 y l2 :
  omap f l = l1 ++ y :: l2 ->
  exists k1 x k2,
    l = k1 ++ x :: k2 /\ omap f k1 = l1 /\ f x = Some y /\ omap f k2 = l2.
Proof.
  revert l1. induction l as [|a l IH]; intros l1 Heq.
  { by destruct l1. }
  cbn in Heq. destruct (f a) as [b|] eqn:Hfa.
  - destruct l1 as [|b' l1]; cbn in Heq.
    + injection Heq as -> Hl2. exists [], a, l. by rewrite Hfa.
    + injection Heq as -> Heq.
      destruct (IH _ Heq) as (k1 & x & k2 & -> & Hk1 & Hx & Hk2).
      exists (a :: k1), x, k2. cbn. by rewrite Hfa, Hk1.
  - destruct (IH _ Heq) as (k1 & x & k2 & -> & Hk1 & Hx & Hk2).
    exists (a :: k1), x, k2. cbn. by rewrite Hfa.
Qed.

(** [range(a, b)] is increasing. *)
Lemma py_range_split (a b : Z) c1 n c2 :
  py_range a b = c1 ++ n :: c2 ->
  (forall j, j ∈ c1 -> j < n) /\ (forall j, j ∈ c2 -> n < j).
Proof.
  unfold py_range. intros Heq.
  assert (forall k x, (c1 ++ n :: c2) !! k = Some x -> x = a + Z.of_nat k)
    as Hat.
  { intros k x. rewrite <- Heq, list_lookup_fmap.
    destruct (seq 0 _ !! k) as [k'|] eqn:Hk; [|done].
    apply lookup_seq in Hk as [-> _]. by intros [= <-]. }
  assert (n = a + Z.of_nat (length c1)) as Hn.
  { apply Hat. by rewrite list_lookup_middle. }
  split.
  - intros j (k & Hk)%list_elem_of_lookup.
    pose proof (lookup_lt_Some _ _ _ Hk).
    rewrite (Hat k j); [lia|]. by rewrite lookup_app_l.
  - intros j (k & Hk)%list_elem_of_lookup.
    rewrite (Hat (length c1 + S k)%nat j); [lia|].
    rewrite lookup_app_r by lia.
    by replace (length c1 + S k - length c1)%nat with (S k) by lia.
Qed.

(** A search over a range that records a candidate records the first of
    the candidates with the best value. *)
Lemma scan_first_best (better : float -> float -> bool) `{!Beats better}
    (value : Z -> option float) (a b : Z) (v0 : float) (n0 j0 : Z)
    (w0 : float) :
  j0 ∈ py_range a b -> value j0 = Some w0 -> better w0 v0 = true ->
  let r := track better (v0, n0) (scored value (py_range a b)) in
  r.2 ∈ py_range a b /\ value r.2 = Some r.1 /\ better r.1 v0 = true /\
  (forall j w, j ∈ py_range a b -> j < r.2 -> value j = Some w ->
               better r.1 w = true \/ is_nan w = true) /\
  (forall j w, j ∈ py_range a b -> value j = Some w ->
               better w r.1 = false).
Proof.
  intros Hj0 Hw0 Hbeats r. subst r.
  destruct (track_origin better (v0, n0) (scored value (py_range a b)))
    as [[_ Hall]|(l1 & t & v & l2 & Hobs & Heq & Hv & Hl1 & Hl2)].
  { assert ((j0, w0) ∈ scored value (py_range a b)) as Hin
      by by apply scored_elem.
    apply Hall in Hin. cbn in Hin. congruence. }
  pose proof (track_bound better (v0, n0) (scored value (py_range a b)))
    as Hbound.
  rewrite Heq in *. cbn [fst snd].
  unfold scored in Hobs.
  apply omap_split in Hobs as (c1 & x & c2 & Hcands & Hc1 & Hx & Hc2).
  destruct (value x) as [vx|] eqn:Hvx; [|done]. injection Hx as -> ->.
  destruct (py_range_split a b c1 t c2 Hcands) as [Hlow Hhigh].
  split_and!; try done.
  - rewrite Hcands. apply elem_of_app. right. left.
  - intros j w Hj Hlt Hw. apply (Hl1 (j, w)). rewrite <- Hc1.
    apply scored_elem. split; [|done].
    rewrite Hcands in Hj.
    apply elem_of_app in Hj as [Hj|[->|Hj]%elem_of_cons]; [done|lia|].
    apply Hhigh in Hj. lia.
  - intros j w Hj Hw. apply (Hbound (j, w)). by apply scored_elem.
Qed.

Lemma bic_value_fitted self i v :
  bic_value self i = Some v -> is_Some (full_fit self i).
Proof.
  unfold bic_value, result_of, bic_of, bind, full_fit.
  rewrite GaussianHMM_fit_run. by destruct (hmm_fit _ _ _ _).
Qed.

Lemma dic_value_fitted self i v :
  dic_value self i = Some v -> is_Some (full_fit self i).
Proof.
  unfold dic_value, result_of, dic_of, bind, full_fit.
  rewrite GaussianHMM_fit_run. by destruct (hmm_fit _ _ _ _).
Qed.

(** Among the candidates with the lowest BIC, [SelectorBIC.select]
    records the one with the fewest states: when some candidate has a BIC
    below [+inf], the recorded candidate [n] has a BIC [v], every
    candidate with fewer states has a strictly higher BIC (or one that is
    not a number), and no candidate has a lower one. *)
Theorem SelectorBIC_ties_go_to_fewer_states self st (j0 : Z) (w0 : float)
    (Hj0 : j0 ∈ candidates self)
    (Hw0 : bic_value self j0 = Some w0)
    (Hfinite : (w0 <? infinity)%float = true) :
  let st' := (SelectorBIC_select self st).2 in
  let n := max_components st' in
  let v := max_score st' in
  n ∈ candidates self /\ bic_value self n = Some v /\
  (forall j w, j ∈ candidates self -> j < n -> bic_value self j = Some w ->
               (v <? w)%float = true \/ is_nan w = true) /\
  (forall j w, j ∈ candidates self -> bic_value self j = Some w ->
               (w <? v)%float = false).
Proof.
  intros st' n v. subst st' n v. rewrite SelectorBIC_select_run.
  cbn [snd max_components max_score].
  destruct (scan_first_best PyFloat.lt (bic_value self)
              (min_n_components self) (max_n_components self + 1)
              infinity (min_n_components self) j0 w0 Hj0 Hw0 Hfinite)
    as (Hin & Hval & _ & Hless & Hall).
  done.
Qed.

(** Among the candidates with the highest DIC, [SelectorDIC.select]
    records the one with the fewest states: when some candidate has a DIC
    above [-inf], the recorded candidate [n] has a DIC [v], every
    candidate with fewer states has a strictly lower DIC (or one that is
    not a number), and no candidate has a higher one. *)
Theorem SelectorDIC_ties_go_to_fewer_states self st (j0 : Z) (w0 : float)
    (Hj0 : j0 ∈ candidates self)
    (Hw0 : dic_value self j0 = Some w0)
    (Hfinite : (neg_infinity <? w0)%float = true) :
  let st' := (SelectorDIC_select self st).2 in
  let n := max_components st' in
  let v := max_score st' in
  n ∈ candidates self /\ dic_value self n = Some v /\
  (forall j w, j ∈ candidates self -> j < n -> dic_value self j = Some w ->
               (w <? v)%float = true \/ is_nan w = true) /\
  (forall j w, j ∈ candidates self -> dic_value self j = Some w ->
               (v <? w)%float = false).
Proof.
  intros st' n v. subst st' n v. rewrite SelectorDIC_select_run.
  cbn [snd max_components max_score].
  destruct (scan_first_best PyFloat.gt (dic_value self)
              (min_n_components self) (max_n_components self + 1)
              neg_infinity (min_n_components self) j0 w0 Hj0 Hw0 Hfinite)
    as (Hin & Hval & _ & Hless & Hall).
  done.
Qed.

(** When some candidate has a BIC below [+inf], [SelectorBIC.select]
    returns a model, not [None]: the recorded candidate was fitted during
    the search, and the final fit repeats that request. *)
Theorem SelectorBIC_returns_model_when_scored self st (j0 : Z) (w0 : float)
    (Hj0 : j0 ∈ candidates self)
    (Hw0 : bic_value self j0 = Some w0)
    (Hfinite : (w0 <? infinity)%float = true) :
  exists (m : model) st', SelectorBIC_select self st = (Done (Some m), st').
Proof.
  rewrite SelectorBIC_select_run. cbn zeta. unfold candidates.
  destruct (scan_first_best PyFloat.lt (bic_value self)
              (min_n_components self) (max_n_components self + 1)
              infinity (min_n_components self) j0 w0 Hj0 Hw0 Hfinite)
    as (_ & Hval & _).
  apply bic_value_fitted in Hval as [m Hm]. rewrite Hm. by eexists _, _.
Qed.

(** When some candidate has a DIC above [-inf], [SelectorDIC.select]
    returns a model, not [None]. *)
Theorem SelectorDIC_returns_model_when_scored self st (j0 : Z) (w0 : float)
    (Hj0 : j0 ∈ candidates self)
    (Hw0 : dic_value self j0 = Some w0)
    (Hfinite : (neg_infinity <? w0)%float = true) :
  exists (m : model) st', SelectorDIC_select self st = (Done (Some m), st').
Proof.
  rewrite SelectorDIC_select_run. cbn zeta. unfold candidates.
  destruct (scan_first_best PyFloat.gt (dic_value self)
              (min_n_components self) (max_n_components self + 1)
              neg_infinity (min_n_components self) j0 w0 Hj0 Hw0 Hfinite)
    as (_ & Hval & _).
  apply dic_value_fitted in Hval as [m Hm]. rewrite Hm. by eexists _, _.
Qed.

Lemma new_fits_app st v n (cs : list fit_call) :
  new_fits st (Search v n (fit_log st ++ cs)) = cs.
Proof. unfold new_fits. cbn. by rewrite drop_app_length. Qed.

(** [SelectorBIC.select] and [SelectorDIC.select] request one fit per
    candidate, in increasing order of the state count, and then one more,
    of the recorded candidate; all of them are on the word's full data
    with the configured seed.  That is [max - min + 2] fits for a range
    that is not empty. *)
Theorem search_requests_one_fit_per_candidate self st :
  Forall
    (fun select : ModelSelector -> Py (option model) =>
       let st' := (select self st).2 in
       new_fits st st' =
         map (fit_of self) (candidates self ++ [max_components st']) /\
       length (new_fits st st') =
         S (Z.to_nat (max_n_components self + 1 - min_n_components self)))
    [SelectorBIC_select; SelectorDIC_select].
Proof.
  assert (length (candidates self) =
          Z.to_nat (max_n_components self + 1 - min_n_components self))
    as Hlen.
  { unfold candidates, py_range. by rewrite length_map, length_seq. }
  repeat apply Forall_cons_2; [| |apply Forall_nil_2]; cbn zeta.
  - rewrite SelectorBIC_select_run. cbn [snd max_components].
    rewrite new_fits_app, map_app, length_app, length_map. cbn.
    split; [done|lia].
  - rewrite SelectorDIC_select_run. cbn [snd max_components].
    rewrite new_fits_app, map_app, length_app, length_map. cbn.
    split; [done|lia].
Qed.



(** The [KFold] splitter is built before the [try]: when its
    construction raises and the range is not empty, the exception leaves
    [SelectorCV.select], at the first candidate, before any fit. *)
Theorem SelectorCV_raises_when_splitter_fails self st
    (Hnew : kfold_new (random_state self) = None)
    (Hrange : min_n_components self <= max_n_components self) :
  SelectorCV_select self st =
  (Raised, Search neg_infinity (min_n_components self) (fit_log st)).
Proof.
  unfold SelectorCV_select, py_range.
  replace (Z.to_nat (max_n_components self + 1 - min_n_components self))
    with (S (Z.to_nat (max_n_components self - min_n_components self)))
    by lia.
  cbn [seq map for_in]. unfold bind at 1 2 3 4.
  unfold cv_iteration, bind, raise_if_none. by rewrite Hnew.
Qed.

End SelectorProperties.

(** ** Further properties of the recognizer *)

Section RecognizerProperties.

Context {adapter : Adapter}.

Implicit Types (models : list (string * option model))
  (test_set : SinglesData) (i : nat).

Lemma visited_get models (w : string) (m : option model) :
  (w, m) ∈ visited models -> dict_get models w = Some m.
Proof.
  unfold visited, lookups. intros (k & _ & Hk)%list_elem_of_omap.
  destruct (dict_get models k) as [m'|] eqn:Hm; [|done].
  by injection Hk as -> ->.
Qed.

(** When a key always comes with the same model, the score recorded
    under a key is the score of that model. *)
Lemma record_scores_lookup_fun test_set i
    (entries : list (string * option model)) values (w : string) m :
  (forall m1 m2, (w, m1) ∈ entries -> (w, m2) ∈ entries -> m1 = m2) ->
  (w, m) ∈ entries ->
  record_scores test_set i entries values !! w
  = Some (item_score test_set i m).
Proof.
  revert values.
  induction entries as [|[k m'] rest IH]; intros values Hfun Hin.
  { by apply elem_of_nil in Hin. }
  unfold record_scores in *. cbn [fold_left fst snd].
  destruct (decide (w ∈ rest.*1)) as [Hrest|Hrest].
  - apply list_elem_of_fmap in Hrest as ([w' m''] & Hw & Hrest).
    cbn in Hw. subst w'.
    assert (m'' = m) as ->.
    { apply Hfun; [by right|done]. }
    apply IH; [|done].
    intros m1 m2 H1 H2. apply Hfun; by right.
  - fold (record_scores test_set i rest
            (<[k := item_score test_set i m']> values)).
    rewrite record_scores_lookup_other by done.
    apply elem_of_cons in Hin as [[= <- <-]|Hin].
    + by rewrite lookup_insert_eq.
    + destruct Hrest. apply list_elem_of_fmap. by exists (w, m).
Qed.

Lemma item_probabilities_lookup models test_set i (w : string) s :
  item_probabilities models test_set i !! w = Some s <->
  (w, s) ∈ label_scores models test_set i.
Proof.
  unfold item_probabilities, label_scores. split.
  - intros [Hs|(m & Hin & ->)]%record_scores_lookup_inv.
    + by rewrite lookup_empty in Hs.
    + apply list_elem_of_fmap. by exists (w, m).
  - intros ([w' m] & [= <- ->] & Hin)%list_elem_of_fmap.
    apply record_scores_lookup_fun; [|done].
    intros m1 m2 H1%visited_get H2%visited_get. congruence.
Qed.

(** The two results of [recognize] agree: the guess for an item, when
    there is one, is a key of the dictionary returned for the item, its
    score there is above [-inf], and no score of the dictionary is above
    it; when the guess is [None], no score of the dictionary is above
    [-inf]. *)
Theorem guess_has_the_best_recorded_score models test_set i
    (Hacc : items_accessible test_set)
    (Hi : (i < num_items test_set)%nat) :
  exists ps gs p g,
    recognize models test_set = Done (ps, gs) /\
    ps !! i = Some p /\ gs !! i = Some g /\
    match g with
    | Some w =>
        exists s, p !! w = Some s /\ PyFloat.gt s neg_infinity = true /\
                  forall w' s', p !! w' = Some s' -> PyFloat.gt s' s = false
    | None => forall w' s', p !! w' = Some s' ->
                            PyFloat.gt s' neg_infinity = false
    end.
Proof.
  destruct (recognize_lookup models test_set i Hacc Hi)
    as (ps & gs & Hrun & _ & _ & Hp & Hg).
  exists ps, gs, (item_probabilities models test_set i),
    (item_guess models test_set i).
  split_and!; [done|done|done|].
  destruct (item_guess_spec models test_set i)
    as [[-> Hall]|(w & s & -> & Hin & Hs & (l1 & s1 & l2 & Heq & Hbest & _))].
  - intros w' s' Hin%item_probabilities_lookup. apply (Hall _ Hin).
  - assert (s1 = s) as ->.
    { assert ((w, s1) ∈ label_scores models test_set i) as Hin1.
      { rewrite Heq. apply elem_of_app. right. left. }
      apply item_probabilities_lookup in Hin, Hin1. congruence. }
    exists s. split_and!; [by apply item_probabilities_lookup|done|].
    intros w' s' Hin'%item_probabilities_lookup. apply (Hbest _ Hin').
Qed.

(** A label whose model scores the item strictly higher than the model
    of every other label, and above [-inf], is the guess for the item,
    wherever it stands in the model collection. *)
Theorem strictly_best_label_is_the_guess models test_set i
    (x : matrix) (ls : list Z) (w : string) (m : option model)
    (Hdict : NoDup models.*1)
    (Hacc : items_accessible test_set)
    (Hi : (i < num_items test_set)%nat)
    (Hitem : get_item_Xlengths test_set i = Some (x, ls))
    (Hw : (w, m) ∈ models)
    (Hnum : PyFloat.gt (score_or_neg_inf m x ls) neg_infinity = true)
    (Hbest : forall w' m', (w', m') ∈ models -> w' <> w ->
               PyFloat.gt (score_or_neg_inf m x ls)
                          (score_or_neg_inf m' x ls) = true) :
  exists ps gs,
    recognize models test_set = Done (ps, gs) /\ gs !! i = Some (Some w).
Proof.
  destruct (recognize_lookup models test_set i Hacc Hi)
    as (ps & gs & Hrun & _ & _ & _ & Hg).
  exists ps, gs. split; [done|]. rewrite Hg. f_equal.
  pose proof (label_scores_item models test_set i x ls Hdict Hitem) as Hsc.
  assert ((w, score_or_neg_inf m x ls) ∈ label_scores models test_set i)
    as Hmine.
  { rewrite Hsc. apply list_elem_of_fmap. by exists (w, m). }
  destruct (item_guess_spec models test_set i)
    as [[_ Hall]|(w2 & s2 & -> & Hin & _ & (l1 & s & l2 & Heq & Hmax & _))].
  { apply Hall in Hmine. cbn [fst snd] in Hmine. congruence. }
  f_equal. destruct (decide (w2 = w)) as [|Hne]; [done|].
  assert ((w2, s) ∈ label_scores models test_set i) as Hin2.
  { rewrite Heq. apply elem_of_app. right. left. }
  rewrite Hsc in Hin2.
  apply list_elem_of_fmap in Hin2 as ([w' m2] & [= -> ->] & Hin2).
  specialize (Hbest _ _ Hin2 Hne). apply Hmax in Hmine.
  cbn [fst snd] in *. congruence.
Qed.

(** The dictionaries of scores that [recognize] returns do not depend on
    the order of the model collection; only the guesses can. *)
Theorem probabilities_do_not_depend_on_model_order
    models (models' : list (string * option model)) test_set
    (Hperm : models ≡ₚ models')
    (Hdict : NoDup models.*1)
    (Hacc : items_accessible test_set) :
  exists ps gs gs',
    recognize models test_set = Done (ps, gs) /\
    recognize models' test_set = Done (ps, gs').
Proof.
  assert (NoDup models'.*1) as Hdict' by by rewrite <- Hperm.
  eexists _, _, _. rewrite !recognize_run by by right.
  split; [done|]. f_equal. f_equal.
  apply map_ext. intros i. apply map_eq. intros w.
  unfold item_probabilities. rewrite !visited_dict by done.
  destruct (decide (w ∈ models.*1)) as [Hin|Hout].
  - apply list_elem_of_fmap in Hin as ([w' m] & Hw & Hin). cbn in Hw.
    subst w'.
    rewrite !(record_scores_lookup _ _ _ _ _ m); try done.
    by rewrite <- Hperm.
  - rewrite !record_scores_lookup_other; try done. by rewrite <- Hperm.
Qed.

(** Each test item is recognized on its own: two test sets that hold
    the same data at index [i] get the same dictionary and the same guess
    at [i], whatever their other items are. *)
Theorem items_are_recognized_independently models test_set
    (test_set' : SinglesData) i
    (Hacc : items_accessible test_set)
    (Hacc' : items_accessible test_set')
    (Hi : (i < num_items test_set)%nat)
    (Hi' : (i < num_items test_set')%nat)
    (Hsame : get_item_Xlengths test_set i = get_item_Xlengths test_set' i) :
  exists ps gs ps' gs' p g,
    recognize models test_set = Done (ps, gs) /\
    recognize models test_set' = Done (ps', gs') /\
    ps !! i = Some p /\ ps' !! i = Some p /\
    gs !! i = Some g /\ gs' !! i = Some g.
Proof.
  destruct (recognize_lookup models test_set i Hacc Hi)
    as (ps & gs & Hrun & _ & _ & Hp & Hg).
  destruct (recognize_lookup models test_set' i Hacc' Hi')
    as (ps' & gs' & Hrun' & _ & _ & Hp' & Hg').
  exists ps, gs, ps', gs', (item_probabilities models test_set i),
    (item_guess models test_set i).
  split_and!; try done.
  - rewrite Hp'. f_equal.
    unfold item_probabilities, record_scores, item_score. by rewrite Hsame.
  - rewrite Hg'. f_equal.
    unfold item_guess, word_scores, item_score. by rewrite Hsame.
Qed.

Lemma map_const_seq {A : Type} (c : A) (a n : nat) :
  map (fun _ : nat => c) (seq a n) = replicate n c.
Proof.
  revert a. induction n as [|n IH]; intros a; [done|].
  cbn. by rewrite IH.
Qed.

(** With an empty model collection [recognize] fetches no test item and
    cannot raise: it returns an empty dictionary and the guess [None] for
    each of the [num_items] items. *)
Theorem recognize_without_models test_set :
  recognize [] test_set =
  Done (replicate (num_items test_set) ∅,
        replicate (num_items test_set) None).
Proof.
  rewrite recognize_run by by left.
  by rewrite <- !(map_const_seq _ 0).
Qed.

End RecognizerProperties.

(** ** The claims on the concrete setting *)

#[local] Existing Instance Toy.engine.

Lemma toy_john_init :
  ModelSelector_init Toy.all_sequences Toy.all_Xlengths "JOHN" 3 2 4 14 false
  = Some Toy.john.
Proof. reflexivity. Qed.

Lemma toy_items_accessible : items_accessible Toy.test_set.
Proof.
  intros [|[|i]] Hi; [by eexists|by eexists|].
  cbn in Hi. lia.
Defined.

Lemma toy_models_dict : NoDup Toy.models.*1.
Proof.
  cbn. repeat apply NoDup_cons_2; [| |apply NoDup_nil_2].
  - intros [H|H]%elem_of_cons; [discriminate H|by apply elem_of_nil in H].
  - by intros H%elem_of_nil.
Defined.

Lemma toy_cv_observed :
  cv_observed (adapter := Toy.engine) Toy.john (candidates Toy.john) =
  [(2, (-10)%float); (3, (-20)%float); (3, (-30)%float); (3, (-25)%float)].
Proof. vm_compute. reflexivity. Defined.

(** C1 on the toy engine: the validation score [-10] of the first fold of
    candidate [2] is the highest, and candidate [2] wins. *)
Lemma SelectorCV_tracks_highest_fold_score_witness :
  exists (best : Z) (top : float) (st' : search),
    SelectorCV_select (adapter := Toy.engine) Toy.john Toy.start =
      (Done (full_fit Toy.john best), st') /\
    max_score st' = top /\ max_components st' = best.
Proof.
  destruct (SelectorCV_tracks_highest_fold_score (adapter := Toy.engine)
              Toy.john Toy.start
              [([1; 2], [0]); ([0; 2], [1]); ([0; 1], [2])]%nat
              2 (-10)%float)
    as (best & top & st' & _ & _ & _ & _ & _ & _ & Hrun & Htop & Hbest & _).
  - by eexists.
  - reflexivity.
  - apply elem_of_py_range. cbn. lia.
  - exists [], ([1; 2], [0])%nat, [([0; 2], [1]); ([0; 1], [2])]%nat.
    split_and!; [reflexivity|apply Forall_nil_2|].
    vm_compute. reflexivity.
  - vm_compute. reflexivity.
  - by exists best, top, st'.
Defined.

(** The winner of the cross-validation search need not have the best
    average: over the range [3, 5] candidate [3] averages [-25] and
    candidate [5] far less, yet [5] wins on its one fold at [-15]. *)
Lemma SelectorCV_winner_without_best_average :
  cv_candidate_scores Toy.john 3
    = [(-20)%float; (-30)%float; (-25)%float] /\
  cv_candidate_scores Toy.john 5
    = [(-15)%float; (-200)%float; (-200)%float] /\
  PyFloat.gt (fold_average [(-20)%float; (-30)%float; (-25)%float])
             (fold_average [(-15)%float; (-200)%float; (-200)%float])
    = true /\
  max_components (SelectorCV_select (with_range Toy.john 3 5) Toy.start).2
    = 5.
Proof. split_and!; vm_compute; reflexivity. Qed.

(** C3 on the toy engine: the BIC of candidate [2], with 6 frames of one
    feature and a log-likelihood of [-60]. *)
Lemma SelectorBIC_score_and_minimum_witness :
  bic_of (adapter := Toy.engine) Toy.john 2 Toy.start =
  (Done (-2 * -60 + 7 * 0x1.cab0bfa2a2002p+0)%float,
   Search 0%float 0 [fit_of Toy.john 2]).
Proof.
  refine (proj1 (SelectorBIC_score_and_minimum (adapter := Toy.engine)
                   Toy.john Toy.start 2 (2, [1; 2; 3]) (-60)%float
                   [1%float] _ 0x1.cab0bfa2a2002p+0%float 7%float
                   _ _ _ _ _)); vm_compute; reflexivity.
Defined.

(** C4 on the toy engine: the DIC of candidate [2], with the one other
    word MARY scoring [-90]. *)
Lemma SelectorDIC_score_and_maximum_witness :
  dic_of (adapter := Toy.engine) Toy.john 2 Toy.start =
  (Done (-60 - 1 / 1 * float_sum [(-90)%float])%float,
   Search 0%float 0 [fit_of Toy.john 2]).
Proof.
  refine (proj1 (SelectorDIC_score_and_maximum (adapter := Toy.engine)
                   Toy.john Toy.start 2 (2, [1; 2; 3]) (-60)%float
                   [(-90)%float] 1%float _ _ _ _ _));
    try (vm_compute; reflexivity).
  vm_compute. discriminate.
Defined.

(** C8 on the toy engine, whose range is [2, 4]. *)
Lemma selected_state_count_in_range_witness :
  exists n st',
    2 <= n <= 4 /\
    SelectorCV_select Toy.john Toy.start = (Done (full_fit Toy.john n), st') /\
    max_components st' = n /\
    last (fit_log st') = Some (fit_of Toy.john n).
Proof.
  refine (proj2 (selected_state_count_in_range (adapter := Toy.engine)
                   Toy.john Toy.start _) _).
  - vm_compute. discriminate.
  - by eexists.
Defined.

(** C5: candidate [2] of the toy cross-validation raises in its second
    fold, after its first fold scored [-10]; it is not skipped: it changes
    the comparison, and it is the candidate [SelectorCV.select] ends on. *)
Lemma cv_raising_candidate_not_skipped :
  hmm_fit 2 14 (Toy.seq0 ++ Toy.seq2) [1; 3] = None /\
  cv_candidate_raises (adapter := Toy.engine) Toy.john 2 /\
  ~ skipped (cv_iteration (adapter := Toy.engine) Toy.john 2)
            (Search neg_infinity 9 []) /\
  max_components
    (SelectorCV_select (adapter := Toy.engine) Toy.john Toy.start).2 = 2.
Proof.
  split_and!.
  - reflexivity.
  - unfold cv_candidate_raises.
    change (kfold_split (random_state Toy.john) (sequences Toy.john))
      with (Some [([1; 2], [0]); ([0; 2], [1]); ([0; 1], [2])]%nat).
    exists ([0; 2], [1])%nat. split; [right; left|].
    vm_compute. reflexivity.
  - intros [_ H]. vm_compute in H. discriminate H.
  - vm_compute. reflexivity.
Qed.

(** C5 as amended, on the toy engine: candidate [4], whose score raises,
    is skipped by the three searches. *)
Lemma failed_candidates_default_and_fresh_fit_witness :
  skipped (bic_iteration (adapter := Toy.engine) Toy.john 4) Toy.start /\
  skipped (dic_iteration (adapter := Toy.engine) Toy.john 4) Toy.start /\
  skipped (cv_iteration (adapter := Toy.engine) Toy.john 4) Toy.start.
Proof.
  destruct (failed_candidates_default_and_fresh_fit (adapter := Toy.engine)
              Toy.john Toy.start 4) as (_ & Hbic & Hdic & Hcv & _).
  split_and!.
  - apply Hbic. vm_compute. reflexivity.
  - apply Hdic. vm_compute. reflexivity.
  - apply Hcv; [by eexists|]. vm_compute. reflexivity.
Defined.

(** C2: on a test set whose item cannot be fetched, [recognize] raises. *)
Lemma recognize_raises_on_item_access :
  recognize (adapter := Toy.engine) Toy.models Toy.broken_set = Raised.
Proof. vm_compute. reflexivity. Qed.

(** C2 as amended, on the toy engine. *)
Lemma raises_only_on_item_access_witness :
  (exists ps gs,
     recognize (adapter := Toy.engine) Toy.models Toy.test_set
     = Done (ps, gs)) /\
  recognize (adapter := Toy.engine) Toy.models Toy.broken_set = Raised.
Proof.
  split.
  - apply (raises_only_on_item_access (adapter := Toy.engine)
             Toy.john Toy.start Toy.models Toy.test_set).
    right. exact toy_items_accessible.
  - apply (proj2 (proj2 (proj2
             (raises_only_on_item_access (adapter := Toy.engine)
                Toy.john Toy.start Toy.models Toy.broken_set)))
             0%nat).
    + discriminate.
    + cbn. lia.
    + reflexivity.
Defined.

(** C6: JOHN is the arg-max label of the item that no model scores (all
    the scores are [-inf], JOHN comes first), yet the guess is [None]. *)
Lemma recognize_guess_is_not_first_label :
  first_best (label_scores (adapter := Toy.engine) Toy.models
                           Toy.unscored_set 0) "JOHN" /\
  exists p,
    recognize (adapter := Toy.engine) Toy.models Toy.unscored_set
    = Done ([p], [None]) /\
    p !! "JOHN" = Some neg_infinity /\ p !! "MARY" = Some neg_infinity.
Proof.
  split.
  - exists [], neg_infinity, [("MARY", neg_infinity)]. split_and!.
    + vm_compute. reflexivity.
    + intros e He.
      change (label_scores (adapter := Toy.engine) Toy.models
                Toy.unscored_set 0)
        with [("JOHN", neg_infinity); ("MARY", neg_infinity)] in He.
      apply elem_of_cons in He as [->|He]; [reflexivity|].
      apply elem_of_cons in He as [->|He]; [reflexivity|].
      by apply elem_of_nil in He.
    + by intros e He%elem_of_nil.
  - eexists. split_and!; [vm_compute; reflexivity| |]; vm_compute; reflexivity.
Qed.

(** C6 as amended, on the first item of a test set whose second item
    cannot be fetched: the pass over the first item records [-10] for
    JOHN. *)
Lemma recognize_records_scores_and_guess_witness :
  exists p g,
    recognize_words Toy.models Toy2.half_broken_set 0 Toy.models.*1
                    (ItemVars neg_infinity None ∅)
      = Done (ItemVars (-10)%float g p) /\
    p !! "JOHN" = Some (-10)%float.
Proof.
  destruct (recognize_records_scores_and_guess (adapter := Toy.engine)
              Toy.models Toy2.half_broken_set 0 Toy.seq0 [1]
              toy_models_dict)
    as (p & g & Hrun & Hscore & _).
  - cbn. lia.
  - reflexivity.
  - exists p, g. split; [exact Hrun|].
    apply (Hscore "JOHN" (2, [1; 2; 3])); [left|].
    vm_compute. reflexivity.
Defined.

(** C7 on the second toy item, which no model scores. *)
Lemma recognize_guess_none_when_all_scores_fail_witness :
  exists ps gs p,
    recognize (adapter := Toy.engine) Toy.models Toy.test_set
    = Done (ps, gs) /\
    gs !! 1%nat = Some None /\ ps !! 1%nat = Some p /\
    forall w s, p !! w = Some s -> s = neg_infinity.
Proof.
  apply (recognize_guess_none_when_all_scores_fail (adapter := Toy.engine)
           Toy.models Toy.test_set 1 (Toy.mary0 ++ Toy.seq0) [5]
           toy_items_accessible).
  - cbn. lia.
  - reflexivity.
  - intros w m Hin.
    apply elem_of_cons in Hin as [[= -> ->]|Hin]; [vm_compute; reflexivity|].
    apply elem_of_cons in Hin as [[= -> ->]|Hin]; [vm_compute; reflexivity|].
    by apply elem_of_nil in Hin.
Defined.

(** C9 on the toy test set of two items. *)
Lemma recognize_alignment_witness :
  exists ps gs,
    recognize (adapter := Toy.engine) Toy.models Toy.test_set
    = Done (ps, gs) /\
    length gs = 2%nat /\ length ps = 2%nat /\
    forall i : nat, (i < 2)%nat ->
      exists p,
        ps !! i = Some p /\
        p = item_probabilities Toy.models Toy.test_set i /\
        gs !! i = Some (item_guess Toy.models Toy.test_set i) /\
        dom p = list_to_set Toy.models.*1 /\
        size p = 2%nat.
Proof.
  exact (recognize_alignment (adapter := Toy.engine) Toy.models Toy.test_set
           toy_models_dict (or_intror toy_items_accessible)).
Defined.

(** ** The further properties on the concrete setting *)

(** An empty range: [4, 2]. *)
Lemma empty_range_fits_min_n_components_witness :
  SelectorCV_select (with_range Toy.john 4 2) Toy.start =
  (Done (full_fit Toy.john 4),
   Search neg_infinity 4 [fit_of Toy.john 4]).
Proof.
  refine (proj2 (proj2 (empty_range_fits_min_n_components
                          (adapter := Toy.engine)
                          (with_range Toy.john 4 2) Toy.start _))).
  cbn. lia.
Defined.

(** JOHN alone in the dictionary. *)
Lemma SelectorDIC_single_word_witness :
  SelectorDIC_select Toy2.john_alone Toy.start =
  (Done (full_fit Toy2.john_alone 2),
   Search neg_infinity 2
     (map (fit_of Toy2.john_alone) [2; 3; 4] ++ [fit_of Toy2.john_alone 2])).
Proof.
  exact (SelectorDIC_single_word (adapter := Toy.engine)
           Toy2.john_alone Toy.start eq_refl).
Defined.

(** A word without frames. *)
Lemma SelectorBIC_no_frames_witness :
  SelectorBIC_select Toy2.no_frames Toy.start =
  (Done (full_fit Toy2.no_frames 2),
   Search infinity 2
     (map (fit_of Toy2.no_frames) [2; 3; 4] ++ [fit_of Toy2.no_frames 2])).
Proof.
  exact (SelectorBIC_no_frames (adapter := Toy.engine)
           Toy2.no_frames Toy.start eq_refl).
Defined.

(** Two sequences for three folds. *)
Lemma SelectorCV_split_raises_witness :
  SelectorCV_select Toy2.two_sequences Toy.start =
  (Done (full_fit Toy2.two_sequences 2),
   Search neg_infinity 2 [fit_of Toy2.two_sequences 2]).
Proof.
  exact (SelectorCV_split_raises (adapter := Toy.engine)
           Toy2.two_sequences Toy.start (ex_intro _ tt eq_refl) eq_refl).
Defined.

Lemma toy_bic_of_three :
  bic_value Toy.john 3 = Some (-2 * -50 + 14 * 0x1.cab0bfa2a2002p+0)%float.
Proof. vm_compute. reflexivity. Defined.

Lemma toy_dic_of_two : dic_value Toy.john 2 = Some 30%float.
Proof. vm_compute. reflexivity. Defined.

Lemma toy_candidate (j : Z) : 2 <= j < 5 -> j ∈ candidates Toy.john.
Proof. intros Hj. by apply elem_of_py_range. Defined.

Lemma toy_longer_accessible : items_accessible Toy2.longer_set.
Proof. intros [|[|i]] Hi; by eexists. Defined.

(** The BIC search of the toy engine records a candidate of the range. *)
Lemma SelectorBIC_ties_go_to_fewer_states_witness :
  max_components (SelectorBIC_select Toy.john Toy.start).2
    ∈ candidates Toy.john.
Proof.
  refine (proj1 (SelectorBIC_ties_go_to_fewer_states (adapter := Toy.engine)
                   Toy.john Toy.start 3 _ _ toy_bic_of_three _)).
  - apply toy_candidate. lia.
  - vm_compute. reflexivity.
Defined.

(** The DIC search of the toy engine records a candidate of the range. *)
Lemma SelectorDIC_ties_go_to_fewer_states_witness :
  max_components (SelectorDIC_select Toy.john Toy.start).2
    ∈ candidates Toy.john.
Proof.
  refine (proj1 (SelectorDIC_ties_go_to_fewer_states (adapter := Toy.engine)
                   Toy.john Toy.start 2 _ _ toy_dic_of_two _)).
  - apply toy_candidate. lia.
  - vm_compute. reflexivity.
Defined.

Lemma SelectorBIC_returns_model_when_scored_witness :
  exists (m : @model Toy.engine) st',
    SelectorBIC_select Toy.john Toy.start = (Done (Some m), st').
Proof.
  refine (SelectorBIC_returns_model_when_scored (adapter := Toy.engine)
            Toy.john Toy.start 3 _ _ toy_bic_of_three _).
  - apply toy_candidate. lia.
  - vm_compute. reflexivity.
Defined.

Lemma SelectorDIC_returns_model_when_scored_witness :
  exists (m : @model Toy.engine) st',
    SelectorDIC_select Toy.john Toy.start = (Done (Some m), st').
Proof.
  refine (SelectorDIC_returns_model_when_scored (adapter := Toy.engine)
            Toy.john Toy.start 2 _ _ toy_dic_of_two _).
  - apply toy_candidate. lia.
  - vm_compute. reflexivity.
Defined.

(** On the two toy items. *)
Lemma guess_has_the_best_recorded_score_witness :
  exists ps gs p g,
    recognize Toy.models Toy.test_set = Done (ps, gs) /\
    ps !! 0%nat = Some p /\ gs !! 0%nat = Some g /\
    match g with
    | Some w =>
        exists s, p !! w = Some s /\ PyFloat.gt s neg_infinity = true /\
                  forall w' s', p !! w' = Some s' -> PyFloat.gt s' s = false
    | None => forall w' s', p !! w' = Some s' ->
                            PyFloat.gt s' neg_infinity = false
    end.
Proof.
  apply (guess_has_the_best_recorded_score (adapter := Toy.engine)
           Toy.models Toy.test_set 0 toy_items_accessible).
  cbn. lia.
Defined.

(** JOHN scores [-10] on the first toy item and MARY [-20]. *)
Lemma strictly_best_label_is_the_guess_witness :
  exists ps gs,
    recognize Toy.models Toy.test_set = Done (ps, gs) /\
    gs !! 0%nat = Some (Some "JOHN").
Proof.
  apply (strictly_best_label_is_the_guess (adapter := Toy.engine)
           Toy.models Toy.test_set 0 Toy.seq0 [1] "JOHN"
           (Some (2, [1; 2; 3])) toy_models_dict toy_items_accessible).
  - cbn. lia.
  - reflexivity.
  - left.
  - vm_compute. reflexivity.
  - intros w' m' Hin Hne.
    apply elem_of_cons in Hin as [[= -> ->]|Hin]; [done|].
    apply elem_of_cons in Hin as [[= -> ->]|Hin]; [vm_compute; reflexivity|].
    by apply elem_of_nil in Hin.
Defined.

(** The toy models in the other order. *)
Lemma probabilities_do_not_depend_on_model_order_witness :
  exists ps gs gs',
    recognize Toy.models Toy.test_set = Done (ps, gs) /\
    recognize (reverse Toy.models) Toy.test_set = Done (ps, gs').
Proof.
  apply (probabilities_do_not_depend_on_model_order (adapter := Toy.engine)
           Toy.models (reverse Toy.models) Toy.test_set).
  - apply Permutation_swap.
  - exact toy_models_dict.
  - exact toy_items_accessible.
Defined.

(** The second item of the two toy test sets. *)
Lemma items_are_recognized_independently_witness :
  exists ps gs ps' gs' p g,
    recognize Toy.models Toy.test_set = Done (ps, gs) /\
    recognize Toy.models Toy2.longer_set = Done (ps', gs') /\
    ps !! 1%nat = Some p /\ ps' !! 1%nat = Some p /\
    gs !! 1%nat = Some g /\ gs' !! 1%nat = Some g.
Proof.
  apply (items_are_recognized_independently (adapter := Toy.engine)
           Toy.models Toy.test_set Toy2.longer_set 1
           toy_items_accessible toy_longer_accessible).
  - cbn. lia.
  - cbn. lia.
  - reflexivity.
Defined.



(** The toy selector on the engine whose splitter cannot be built. *)
Lemma SelectorCV_raises_when_splitter_fails_witness :
  SelectorCV_select (adapter := Toy2.strict_engine) Toy.john Toy.start =
  (Raised, Search neg_infinity 2 []).
Proof.
  apply (SelectorCV_raises_when_splitter_fails (adapter := Toy2.strict_engine)
           Toy.john Toy.start eq_refl).
  cbn. lia.
Defined.

(** C9: on the test set whose item cannot be fetched, [recognize] returns
    no lists at all, aligned or not. *)
Lemma recognize_returns_no_lists_on_item_access :
  ~ exists ps gs,
      recognize (adapter := Toy.engine) Toy.models Toy.broken_set
      = Done (ps, gs) /\
      length gs = num_items Toy.broken_set /\
      length ps = num_items Toy.broken_set.
Proof.
  intros (ps & gs & Hrun & _). vm_compute in Hrun. discriminate Hrun.
Qed.
